(** * Trim-session controller of the client-side video editor (src/App.tsx)

    A shallow embedding of the React component [App]: its state hooks, its
    refs, the synchronous event handlers and the two asynchronous handlers
    [handleTrim] and [handleShare] with the engine loader [loadFFmpeg].

    Conventions of the embedding.
    - JavaScript numbers: the state and the handlers are written over
      exact rationals ([Q]) with the decidable comparisons of [QArith].
      Properties over them are stated for magnitudes on which the binary64
      operations of the program decide the same comparisons: the slider
      track, the safe-integer range, a finite duration.  Where rounding
      decides the matter, the two setters are given again in binary64
      ([handleStartTimeChange64], [handleEndTimeChange64]).  NaN is
      outside the model.
    - A handler of one render reads the state captured by that render (a
      [Session] snapshot) and writes through the setters; refs and browser
      resources are read and written in place ([World]).
    - [console.log] / [console.error] calls and the log/progress observers
      attached to the engine are diagnostics and are left out.
    - src/App.tsx holds two copies of the component.  They differ in the
      base location passed to the engine loader (line 49 and line 503) and
      in markup only, so every handler is written once and the loader takes
      the base location as a parameter. *)

From Stdlib Require Import QArith ZArith List String Lqa Lia DecimalString.
From Stdlib Require Import Qround SpecFloat.
From stdpp Require Import base gmap strings.
Import ListNotations.

Open Scope Q_scope.

(** ** Data model *)

(** A browser [File]: name, declared MIME type and content. *)
Record File := mkFile {
  file_name : string;
  file_type : string;
  file_bytes : list Byte.byte
}.

(** Object URLs ([URL.createObjectURL]) are opaque handles. *)
Definition ObjectURL := nat.

(** Handles of engine instances ([new FFmpeg()]). *)
Definition Engine := nat.

(** The eight [useState] cells of [App] (lines 7-14). *)
Record Session := mkSession {
  currentFile : option File;
  currentUrl : option ObjectURL;
  videoDuration : Q;
  startTime : Q;
  endTime : Q;
  loading : bool;
  showTrimControls : bool;
  showActions : bool
}.

(** Initial values of the state hooks. *)
Definition initialSession : Session :=
  mkSession None None 0 0 100 false false false.

Definition setCurrentFile (f : option File) (s : Session) : Session :=
  mkSession f (currentUrl s) (videoDuration s) (startTime s) (endTime s)
            (loading s) (showTrimControls s) (showActions s).

Definition setCurrentUrl (u : option ObjectURL) (s : Session) : Session :=
  mkSession (currentFile s) u (videoDuration s) (startTime s) (endTime s)
            (loading s) (showTrimControls s) (showActions s).

Definition setVideoDuration (d : Q) (s : Session) : Session :=
  mkSession (currentFile s) (currentUrl s) d (startTime s) (endTime s)
            (loading s) (showTrimControls s) (showActions s).

Definition setStartTime (x : Q) (s : Session) : Session :=
  mkSession (currentFile s) (currentUrl s) (videoDuration s) x (endTime s)
            (loading s) (showTrimControls s) (showActions s).

Definition setEndTime (x : Q) (s : Session) : Session :=
  mkSession (currentFile s) (currentUrl s) (videoDuration s) (startTime s) x
            (loading s) (showTrimControls s) (showActions s).

Definition setLoading (b : bool) (s : Session) : Session :=
  mkSession (currentFile s) (currentUrl s) (videoDuration s) (startTime s)
            (endTime s) b (showTrimControls s) (showActions s).

Definition setShowTrimControls (b : bool) (s : Session) : Session :=
  mkSession (currentFile s) (currentUrl s) (videoDuration s) (startTime s)
            (endTime s) (loading s) b (showActions s).

Definition setShowActions (b : bool) (s : Session) : Session :=
  mkSession (currentFile s) (currentUrl s) (videoDuration s) (startTime s)
            (endTime s) (loading s) (showTrimControls s) b.

(** Derived values computed on every render (lines 28-30). *)
Definition startTimeInSeconds (s : Session) : Q :=
  (startTime s / 100) * videoDuration s.

Definition endTimeInSeconds (s : Session) : Q :=
  (endTime s / 100) * videoDuration s.

Definition duration (s : Session) : Q :=
  endTimeInSeconds s - startTimeInSeconds s.

(** The mounted [<video>] element behind [videoRef]. *)
Record Video := mkVideo {
  video_duration : Q;
  video_currentTime : Q;
  video_playing : bool
}.

(** Everything a handler can read or write: the state hooks, the three refs
    and the registry of live object URLs. *)
Record World := mkWorld {
  session : Session;
  videoRef : option Video;
  ffmpegRef : option Engine;
  fileInputValue : string;
  liveUrls : gset ObjectURL;
  nextUrl : ObjectURL;
  nextEngine : Engine
}.

Definition initialWorld : World :=
  mkWorld initialSession None None "" ∅ 0%nat 0%nat.

Definition withSession (f : Session -> Session) (w : World) : World :=
  mkWorld (f (session w)) (videoRef w) (ffmpegRef w) (fileInputValue w)
          (liveUrls w) (nextUrl w) (nextEngine w).

Definition withVideo (f : Video -> Video) (w : World) : World :=
  mkWorld (session w) (option_map f (videoRef w)) (ffmpegRef w)
          (fileInputValue w) (liveUrls w) (nextUrl w) (nextEngine w).

Definition setVideoRef (v : option Video) (w : World) : World :=
  mkWorld (session w) v (ffmpegRef w) (fileInputValue w) (liveUrls w)
          (nextUrl w) (nextEngine w).

Definition setFfmpegRef (e : option Engine) (w : World) : World :=
  mkWorld (session w) (videoRef w) e (fileInputValue w) (liveUrls w)
          (nextUrl w) (nextEngine w).

Definition setFileInputValue (v : string) (w : World) : World :=
  mkWorld (session w) (videoRef w) (ffmpegRef w) v (liveUrls w) (nextUrl w)
          (nextEngine w).

(** [new FFmpeg()]: a fresh engine instance. *)
Definition newFFmpeg (w : World) : Engine * World :=
  (nextEngine w,
   mkWorld (session w) (videoRef w) (ffmpegRef w) (fileInputValue w)
           (liveUrls w) (nextUrl w) (S (nextEngine w))).

(** [URL.createObjectURL]: a fresh handle, registered as live. *)
Definition createObjectURL (w : World) : ObjectURL * World :=
  (nextUrl w,
   mkWorld (session w) (videoRef w) (ffmpegRef w) (fileInputValue w)
           ({[ nextUrl w ]} ∪ liveUrls w) (S (nextUrl w)) (nextEngine w)).

(** [URL.revokeObjectURL]. *)
Definition revokeObjectURL (u : ObjectURL) (w : World) : World :=
  mkWorld (session w) (videoRef w) (ffmpegRef w) (fileInputValue w)
          (liveUrls w ∖ {[ u ]}) (nextUrl w) (nextEngine w).

Definition seek (t : Q) (v : Video) : Video :=
  mkVideo (video_duration v) t (video_playing v).

Definition play (v : Video) : Video :=
  mkVideo (video_duration v) (video_currentTime v) true.

(** ** Synchronous handlers *)

(** [handleLoadedMetadata] (lines 86-92). *)
Definition handleLoadedMetadata (w : World) : World :=
  match videoRef w with
  | Some v =>
      withSession (fun s => setEndTime 100
                              (setShowTrimControls true
                                 (setVideoDuration (video_duration v) s))) w
  | None => w
  end.

(** [handleStartTimeChange] (lines 95-106). *)
Definition handleStartTimeChange (value : Q) (w : World) : World :=
  let s := session w in
  let w1 :=
    if Qle_bool (endTime s) value
    then withSession (setStartTime (endTime s - 1)) w
    else withSession (setStartTime value) w in
  withVideo (seek ((value / 100) * videoDuration s)) w1.

(** [handleEndTimeChange] (lines 109-120). *)
Definition handleEndTimeChange (value : Q) (w : World) : World :=
  let s := session w in
  let w1 :=
    if Qle_bool value (startTime s)
    then withSession (setEndTime (startTime s + 1)) w
    else withSession (setEndTime value) w in
  withVideo (seek ((value / 100) * videoDuration s)) w1.

(** [handlePreviewTrim] (lines 123-128). *)
Definition handlePreviewTrim (w : World) : World :=
  withVideo (fun v => play (seek (startTimeInSeconds (session w)) v)) w.

(** [handleClear] (lines 336-352). *)
Definition handleClear (w : World) : World :=
  let w1 := match currentUrl (session w) with
            | Some u => revokeObjectURL u w
            | None => w
            end in
  let w2 := setFileInputValue "" w1 in
  withSession (fun s =>
    setShowTrimControls false
      (setShowActions false
         (setEndTime 100
            (setStartTime 0
               (setVideoDuration 0
                  (setCurrentUrl None
                     (setCurrentFile None s))))))) w2.

(** The calls of the two range sliders, as a user can issue them. *)
Inductive SliderCall :=
| SetStartFraction (value : Q)
| SetEndFraction (value : Q).

Definition slider (c : SliderCall) (w : World) : World :=
  match c with
  | SetStartFraction v => handleStartTimeChange v w
  | SetEndFraction v => handleEndTimeChange v w
  end.

Definition sliders (cs : list SliderCall) (w : World) : World :=
  fold_left (fun acc c => slider c acc) cs w.

(** The range invariant of the specification. *)
Definition range_ok (w : World) : Prop :=
  0 <= startTime (session w) /\
  startTime (session w) < endTime (session w) /\
  endTime (session w) <= 100.

(** The part of it that the setters maintain on their own. *)
Definition ordered (w : World) : Prop :=
  startTime (session w) < endTime (session w).

(** ** Calls made by the handlers

    Thrown and rejected values: the handlers read nothing but the message
    ([error.message] or [String(error)]). *)
Record Error := mkError { message : string }.

Inductive result (A : Type) : Type :=
| Ok (a : A)
| Fail (e : Error).
Arguments Ok {A} a.
Arguments Fail {A} e.

Record Blob := mkBlob {
  blob_parts : list Byte.byte;
  blob_type : string
}.

Definition blob_size (b : Blob) : nat := length (blob_parts b).

(** A detached [<a>] element used to trigger a save. *)
Record Anchor := mkAnchor {
  a_href : ObjectURL;
  a_download : string;
  a_target : string
}.

(** One element of the argument vector of [ffmpeg.exec]: a literal, or the
    decimal rendering [x.toString()] of a number. *)
Inductive Arg :=
| Lit (s : string)
| Num (x : Q).

(** Callbacks handed to [setTimeout]. *)
Inductive Callback :=
| RemoveAnchor (a : Anchor)
| RevokeUrl (u : ObjectURL)
| RemoveAnchorAndRevoke (a : Anchor) (u : ObjectURL).

(** Synchronous calls that cannot throw. *)
Inductive action :=
| ASetLoading (b : bool)
| AReadFfmpegRef
| ANewFFmpeg
| AWriteFfmpegRef (e : Engine)
| ACreateObjectURL (b : Blob)
| AAppendChild (a : Anchor)
| ARemoveChild (a : Anchor)
| ADispatchClick (a : Anchor)
| ASetTimeout (cb : Callback) (ms : N)
| AConfirm (msg : string)
| AWindowOpen (u : ObjectURL) (target : string)
| AAlert (msg : string)
| ANavigatorShare.

Definition aresp (a : action) : Type :=
  match a with
  | AReadFfmpegRef => option Engine
  | ANewFFmpeg => Engine
  | ACreateObjectURL _ => ObjectURL
  | AConfirm _ => bool
  | ANavigatorShare => bool
  | _ => unit
  end.

(** Calls that may throw or reject. *)
Inductive request :=
| RToBlobURL (url mime : string)
| RLoad (e : Engine) (coreURL wasmURL : string)
| RFetchFile (f : File)
| RWriteFile (e : Engine) (name : string) (data : list Byte.byte)
| RExec (e : Engine) (args : list Arg)
| RListDir (e : Engine) (path : string)
| RReadFile (e : Engine) (name : string)
| RClick (a : Anchor)
| RCanShare (files : list File)
| RShare (files : list File) (title text : string).

Definition rresp (r : request) : Type :=
  match r with
  | RToBlobURL _ _ => string
  | RFetchFile _ => list Byte.byte
  | RExec _ _ => Z
  | RReadFile _ _ => list Byte.byte
  | RCanShare _ => bool
  | _ => unit
  end.

(** The requests that return a promise; [a.click()] and
    [navigator.canShare] answer at once. *)
Definition is_await (r : request) : bool :=
  match r with
  | RClick _ | RCanShare _ => false
  | _ => true
  end.

Inductive event :=
| EAct (a : action)
| EReq (r : request).

(** ** Handler bodies as trees of calls *)

Inductive prog (A : Type) : Type :=
| Ret (a : A)
| Throw (e : Error)
| Act (a : action) (k : aresp a -> prog A)
| Req (r : request) (k : result (rresp r) -> prog A).
Arguments Ret {A} a.
Arguments Throw {A} e.
Arguments Act {A} a k.
Arguments Req {A} r k.

Fixpoint bind {A B : Type} (p : prog A) (f : A -> prog B) : prog B :=
  match p with
  | Ret a => f a
  | Throw e => Throw e
  | Act a k => Act a (fun x => bind (k x) f)
  | Req r k => Req r (fun x => bind (k x) f)
  end.

#[export] Instance prog_ret : MRet prog := fun A a => Ret a.
#[export] Instance prog_bind : MBind prog := fun A B f p => bind p f.

(** A call that cannot throw. *)
Definition act (a : action) : prog (aresp a) := Act a Ret.

(** A call whose failure is thrown at the call site ([await] of a promise,
    or a synchronous call that throws). *)
Definition await (r : request) : prog (rresp r) :=
  Req r (fun x => match x with Ok v => Ret v | Fail e => Throw e end).

(** [try { p } catch (error) { h error }]. *)
Fixpoint try_catch {A : Type} (p : prog A) (h : Error -> prog A) : prog A :=
  match p with
  | Ret a => Ret a
  | Throw e => h e
  | Act a k => Act a (fun x => try_catch (k x) h)
  | Req r k => Req r (fun x => try_catch (k x) h)
  end.

(** [try { p } finally { f }]. *)
Fixpoint try_finally {A : Type} (p : prog A) (f : prog unit) : prog A :=
  match p with
  | Ret a => bind f (fun _ => Ret a)
  | Throw e => bind f (fun _ => Throw e)
  | Act a k => Act a (fun x => try_finally (k x) f)
  | Req r k => Req r (fun x => try_finally (k x) f)
  end.

Definition string_of_Z (z : Z) : string :=
  NilZero.string_of_int (Z.to_int z).

Definition nl : string := String (Ascii.ascii_of_nat 10) EmptyString.
Definition dquote : string := String (Ascii.ascii_of_nat 34) EmptyString.

(** The text passed to [confirm] after a trim (line 240). *)
Definition trimDoneMessage : string :=
  "Video trimmed successfully! ✅" +:+ nl +:+ nl +:+
  "If the download didn't start:" +:+ nl +:+
  "1. Check your Downloads folder" +:+ nl +:+
  "2. Click " +:+ dquote +:+ "OK" +:+ dquote +:+
  " to open the video in a new tab" +:+ nl +:+
  "3. Right-click the video and select " +:+ dquote +:+
  "Save video as..." +:+ dquote.

(** The argument vector shared by both handlers (lines 154-161, 283-290). *)
Definition trimArgs (s : Session) : list Arg :=
  [Lit "-ss"; Num (startTimeInSeconds s);
   Lit "-i"; Lit "input.mp4";
   Lit "-t"; Num (duration s);
   Lit "-c"; Lit "copy";
   Lit "-avoid_negative_ts"; Lit "make_zero";
   Lit "output.mp4"].

(** The base location of the engine runtime: line 49 in the first copy of
    the component, line 503 in the second. *)
Definition baseURL_cdn : string :=
  "https://cdn.jsdelivr.net/npm/@ffmpeg/core@0.12.6/dist/esm".

Definition baseURL_selfhosted : string := "/ffmpeg".

(** ** The calls, with their JavaScript names *)

Definition setLoadingP (b : bool) : prog unit := act (ASetLoading b).
Definition readFfmpegRef : prog (option Engine) := act AReadFfmpegRef.
Definition new_FFmpeg : prog Engine := act ANewFFmpeg.
Definition writeFfmpegRef (e : Engine) : prog unit := act (AWriteFfmpegRef e).
Definition URL_createObjectURL (b : Blob) : prog ObjectURL :=
  act (ACreateObjectURL b).
Definition appendChild (a : Anchor) : prog unit := act (AAppendChild a).
Definition removeChild (a : Anchor) : prog unit := act (ARemoveChild a).
Definition dispatchClick (a : Anchor) : prog unit := act (ADispatchClick a).
Definition setTimeout (cb : Callback) (ms : N) : prog unit :=
  act (ASetTimeout cb ms).
Definition confirm (msg : string) : prog bool := act (AConfirm msg).
Definition window_open (u : ObjectURL) (target : string) : prog unit :=
  act (AWindowOpen u target).
Definition alert (msg : string) : prog unit := act (AAlert msg).
Definition navigator_share_defined : prog bool := act ANavigatorShare.

Definition toBlobURL (url mime : string) : prog string :=
  await (RToBlobURL url mime).
Definition ffmpeg_load (e : Engine) (coreURL wasmURL : string) : prog unit :=
  await (RLoad e coreURL wasmURL).
Definition fetchFile (f : File) : prog (list Byte.byte) :=
  await (RFetchFile f).
Definition ffmpeg_writeFile (e : Engine) (name : string)
    (data : list Byte.byte) : prog unit :=
  await (RWriteFile e name data).
Definition ffmpeg_exec (e : Engine) (args : list Arg) : prog Z :=
  await (RExec e args).
Definition ffmpeg_listDir (e : Engine) (path : string) : prog unit :=
  await (RListDir e path).
Definition ffmpeg_readFile (e : Engine) (name : string)
    : prog (list Byte.byte) :=
  await (RReadFile e name).
Definition click (a : Anchor) : prog unit := await (RClick a).
Definition navigator_canShare (files : list File) : prog bool :=
  await (RCanShare files).
Definition navigator_share (files : list File) (title text : string)
    : prog unit :=
  await (RShare files title text).

(** ** Asynchronous handlers *)

(** [loadFFmpeg] (lines 33-64). *)
Definition loadFFmpeg (baseURL : string) : prog Engine :=
  cached ← readFfmpegRef;
  match cached with
  | Some ffmpeg => Ret ffmpeg
  | None =>
      ffmpeg ← new_FFmpeg;
      try_catch
        (coreURL ← toBlobURL (baseURL +:+ "/ffmpeg-core.js")
                             "text/javascript";
         wasmURL ← toBlobURL (baseURL +:+ "/ffmpeg-core.wasm")
                             "application/wasm";
         ffmpeg_load ffmpeg coreURL wasmURL)
        (fun error => Throw error);;
      writeFfmpegRef ffmpeg;;
      Ret ffmpeg
  end.

(** [handleTrim] (lines 131-258), for the state [s] captured by the render
    whose button was clicked. *)
Definition handleTrim (baseURL : string) (s : Session) : prog unit :=
  match currentFile s with
  | None => Ret tt
  | Some file =>
      setLoadingP true;;
      try_finally
        (try_catch
           (ffmpeg ← loadFFmpeg baseURL;
            bytes ← fetchFile file;
            ffmpeg_writeFile ffmpeg "input.mp4" bytes;;
            exitCode ← ffmpeg_exec ffmpeg (trimArgs s);
            if negb (exitCode =? 0)%Z
            then Throw (mkError ("FFmpeg failed with exit code " +:+
                                 string_of_Z exitCode))
            else
              ffmpeg_listDir ffmpeg "/";;
              data ← ffmpeg_readFile ffmpeg "output.mp4";
              if (length data =? 0)%nat
              then Throw (mkError "Output file is empty")
              else
                let blob := mkBlob data "video/mp4" in
                if (blob_size blob =? 0)%nat
                then Throw (mkError "Created blob is empty")
                else
                  url ← URL_createObjectURL blob;
                  let fileName := "trimmed-" +:+ file_name file in
                  let a := mkAnchor url fileName "_blank" in
                  appendChild a;;
                  try_catch (click a) (fun _ => dispatchClick a);;
                  setTimeout (RemoveAnchor a) 5000;;
                  ok ← confirm trimDoneMessage;
                  (if ok : bool then window_open url "_blank" else Ret tt);;
                  setTimeout (RevokeUrl url) 30000)
           (fun error =>
              alert ("Error trimming video: " +:+ message error)))
        (setLoadingP false)
  end.

(** [handleDownload] (lines 261-270). *)
Definition handleDownload (s : Session) : prog unit :=
  match currentFile s, currentUrl s with
  | Some file, Some url =>
      let a := mkAnchor url (file_name file) "" in
      appendChild a;;
      click a;;
      removeChild a
  | _, _ => Ret tt
  end.

(** [handleShare] (lines 273-333). *)
Definition handleShare (baseURL : string) (s : Session) : prog unit :=
  match currentFile s with
  | None => Ret tt
  | Some currentFile =>
      setLoadingP true;;
      try_finally
        (try_catch
           (ffmpeg ← loadFFmpeg baseURL;
            bytes ← fetchFile currentFile;
            ffmpeg_writeFile ffmpeg "input.mp4" bytes;;
            ffmpeg_exec ffmpeg (trimArgs s);;
            data ← ffmpeg_readFile ffmpeg "output.mp4";
            if (length data =? 0)%nat
            then Throw (mkError "Output file is empty")
            else
              let blob := mkBlob data "video/mp4" in
              if (blob_size blob =? 0)%nat
              then Throw (mkError "Created blob is empty")
              else
                let file := mkFile ("trimmed-" +:+ file_name currentFile)
                                   "video/mp4" (blob_parts blob) in
                hasShare ← navigator_share_defined;
                canShare ← (if hasShare : bool
                            then navigator_canShare [file]
                            else Ret false);
                if canShare : bool
                then navigator_share [file] "Trimmed Video"
                                     "Your trimmed video is ready"
                else
                  alert "Share not supported. Video will download instead.";;
                  url ← URL_createObjectURL blob;
                  let a := mkAnchor url (file_name file) "" in
                  appendChild a;;
                  click a;;
                  setTimeout (RemoveAnchorAndRevoke a url) 100)
           (fun error => alert ("Error: " +:+ message error)))
        (setLoadingP false)
  end.

(** [handleFileChange] (lines 67-83); [files] is [event.target.files]. *)
Definition handleFileChange (files : option (list File)) (w : World)
    : World * list event :=
  match files ≫= head with
  | Some file =>
      if String.prefix "video/" (file_type file)
      then
        let w1 := withSession (setCurrentFile (Some file)) w in
        let w2 := match currentUrl (session w) with
                  | Some u => revokeObjectURL u w1
                  | None => w1
                  end in
        let '(url, w3) := createObjectURL w2 in
        (withSession (fun s => setShowActions true
                                 (setCurrentUrl (Some url) s)) w3, [])
      else (w, [EAct (AAlert "Please select a valid video file")])
  | None => (w, [EAct (AAlert "Please select a valid video file")])
  end.

(** ** Running a handler

    What the browser, the user and the engine answer during one run. *)
Record Env := mkEnv {
  confirmAnswer : string -> bool;
  navigatorShare : bool;
  respond : forall r : request, result (rresp r)
}.

(** The calls that act on the component's own state and refs are answered
    by the [World]; timers are recorded in the trace and not fired. *)
Definition perform (env : Env) (a : action) (w : World) : aresp a * World :=
  match a return aresp a * World with
  | ASetLoading b => (tt, withSession (setLoading b) w)
  | AReadFfmpegRef => (ffmpegRef w, w)
  | ANewFFmpeg => newFFmpeg w
  | AWriteFfmpegRef e => (tt, setFfmpegRef (Some e) w)
  | ACreateObjectURL _ => createObjectURL w
  | AAppendChild _ => (tt, w)
  | ARemoveChild _ => (tt, w)
  | ADispatchClick _ => (tt, w)
  | ASetTimeout _ _ => (tt, w)
  | AConfirm msg => (confirmAnswer env msg, w)
  | AWindowOpen _ _ => (tt, w)
  | AAlert _ => (tt, w)
  | ANavigatorShare => (navigatorShare env, w)
  end.

(** A handler run from its call to the point where its promise settles,
    with no other handler interleaved: final world, calls made in order,
    and how the promise settled. *)
Fixpoint run {A : Type} (env : Env) (p : prog A) (w : World)
    : World * list event * result A :=
  match p with
  | Ret a => (w, [], Ok a)
  | Throw e => (w, [], Fail e)
  | Act a k =>
      let '(x, w1) := perform env a w in
      let '(w2, t, o) := run env (k x) w1 in
      (w2, EAct a :: t, o)
  | Req r k =>
      let '(w2, t, o) := run env (k (respond env r)) w in
      (w2, EReq r :: t, o)
  end.

Definition final_world {A : Type} (x : World * list event * result A)
    : World := fst (fst x).
Definition calls {A : Type} (x : World * list event * result A)
    : list event := snd (fst x).
Definition outcome {A : Type} (x : World * list event * result A)
    : result A := snd x.

(** ** Observations on a trace *)

Definition is_exec (e : event) : bool :=
  match e with EReq (RExec _ _) => true | _ => false end.

Definition is_alert (e : event) : bool :=
  match e with EAct (AAlert _) => true | _ => false end.

Definition is_error_alert (e : event) : bool :=
  match e with
  | EAct (AAlert msg) => String.prefix "Error" msg
  | _ => false
  end.

(** A save is triggered by clicking an anchor carrying a [download] name. *)
Definition is_save (e : event) : bool :=
  match e with
  | EReq (RClick _) | EAct (ADispatchClick _) => true
  | _ => false
  end.

Definition is_share (e : event) : bool :=
  match e with EReq (RShare _ _ _) => true | _ => false end.

Definition is_delivery (e : event) : bool := is_save e || is_share e.

(** [handleShare] asks for [navigator.share] once the trimmed file exists
    and has passed the emptiness checks. *)
Definition asks_share_support (e : event) : bool :=
  match e with EAct ANavigatorShare => true | _ => false end.

Definition is_load (e : event) : bool :=
  match e with EReq (RLoad _ _ _) => true | _ => false end.

(** The locations fetched while the engine is loaded. *)
Definition fetched (t : list event) : list string :=
  flat_map (fun e => match e with
                     | EReq (RToBlobURL url _) => [url]
                     | _ => []
                     end) t.

(** A location is resolved against the page's own origin when it is a
    path ("/..." but not "//..."); one that names a scheme and host of its
    own is absolute. *)
Definition same_origin_path (url : string) : bool :=
  String.prefix "/" url && negb (String.prefix "//" url).

Definition names_remote_host (url : string) : bool :=
  String.prefix "https://" url || String.prefix "http://" url
  || String.prefix "//" url.

(** ** The event loop

    Handlers suspended at an [await], with the request awaited. *)
Inductive Suspended :=
| Susp (r : request) (k : result (rresp r) -> prog unit).

(** Run a handler body up to its next [await]. *)
Fixpoint advance (env : Env) (p : prog unit) (w : World)
    : World * list event * option Suspended :=
  match p with
  | Ret _ => (w, [], None)
  | Throw _ => (w, [], None)
  | Act a k =>
      let '(x, w1) := perform env a w in
      let '(w2, t, o) := advance env (k x) w1 in
      (w2, EAct a :: t, o)
  | Req r k =>
      if is_await r
      then (w, [EReq r], Some (Susp r k))
      else
        let '(w2, t, o) := advance env (k (respond env r)) w in
        (w2, EReq r :: t, o)
  end.

Record System := mkSystem {
  world : World;
  pending : list Suspended;
  history : list event
}.

Definition initialSystem : System := mkSystem initialWorld [] [].

(** React commits the render: [videoRef] follows the presence of
    [currentUrl] (lines 378-386). *)
Definition render (w : World) : World :=
  match currentUrl (session w), videoRef w with
  | None, _ => setVideoRef None w
  | Some _, None => setVideoRef (Some (mkVideo 0 0 false)) w
  | Some _, Some _ => w
  end.

(** What can happen next: a user gesture on a rendered control, the
    [loadedmetadata] event of the mounted video, or the settling of an
    awaited request. *)
Inductive Input :=
| SelectFile (files : option (list File))
| MetadataLoaded (d : Q)
| Slide (c : SliderCall)
| ClickPreview
| ClickTrim
| ClickDownload
| ClickShare
| ClickClear
| Settle (i : nat).

Definition spawn (env : Env) (p : prog unit) (sys : System) : System :=
  let '(w, t, o) := advance env p (world sys) in
  mkSystem (render w)
           (match o with
            | Some task => pending sys ++ [task]
            | None => pending sys
            end)
           (history sys ++ t).

Definition sync (w : World) (t : list event) (sys : System) : System :=
  mkSystem (render w) (pending sys) (history sys ++ t).

Definition guard (b : bool) (sys : System) : option System :=
  if b then Some sys else None.

Definition step (baseURL : string) (env : Env) (i : Input) (sys : System)
    : option System :=
  let w := world sys in
  let s := session w in
  match i with
  | SelectFile files =>
      let '(w1, t) := handleFileChange files w in Some (sync w1 t sys)
  | MetadataLoaded d =>
      match videoRef w with
      | Some v =>
          let w1 := setVideoRef
                      (Some (mkVideo d (video_currentTime v)
                                     (video_playing v))) w in
          Some (sync (handleLoadedMetadata w1) [] sys)
      | None => None
      end
  | Slide c =>
      guard (showTrimControls s) (sync (slider c w) [] sys)
  | ClickPreview =>
      guard (showTrimControls s) (sync (handlePreviewTrim w) [] sys)
  | ClickTrim =>
      guard (showTrimControls s) (spawn env (handleTrim baseURL s) sys)
  | ClickDownload =>
      guard (showActions s) (spawn env (handleDownload s) sys)
  | ClickShare =>
      guard (showActions s) (spawn env (handleShare baseURL s) sys)
  | ClickClear =>
      guard (showActions s) (sync (handleClear w) [] sys)
  | Settle i =>
      match pending sys !! i with
      | Some (Susp r k) =>
          let '(w1, t, o) := advance env (k (respond env r)) w in
          Some (mkSystem (render w1)
                         (match o with
                          | Some task => <[i := task]> (pending sys)
                          | None => delete i (pending sys)
                          end)
                         (history sys ++ t))
      | None => None
      end
  end.

Fixpoint steps (baseURL : string) (script : list (Env * Input))
    (sys : System) : option System :=
  match script with
  | [] => Some sys
  | (env, i) :: rest =>
      match step baseURL env i sys with
      | Some sys' => steps baseURL rest sys'
      | None => None
      end
  end.

(** States the application can be in. *)
Definition reachable (baseURL : string) (sys : System) : Prop :=
  exists script, steps baseURL script initialSystem = Some sys.

Definition awaits_exec (t : Suspended) : bool :=
  match t with
  | Susp (RExec _ _) _ => true
  | _ => false
  end.

(** Engine invocations dispatched and not yet settled. *)
Definition execs_in_flight (sys : System) : nat :=
  length (List.filter awaits_exec (pending sys)).

(** ** The shape of the guarded handlers

    Both handlers have the shape
    [setLoading(true); try { .. } catch { alert(..) } finally
    { setLoading(false) }] once a file is present. *)
Definition guarded (body : prog unit) (text : Error -> string) : prog unit :=
  bind (setLoadingP true)
       (fun _ => try_finally (try_catch body (fun e => alert (text e)))
                             (setLoadingP false)).

(** ** Sample data *)

Definition clip : File := mkFile "clip.mp4" "video/mp4" [Byte.x01].
Definition clip2 : File := mkFile "next.mp4" "video/mp4" [Byte.x03].

(** The engine's answers, given the exit indicator of [exec] and the bytes
    read back; every other request succeeds. *)
Definition engineAnswers (exitCode : Z) (output : list Byte.byte)
    (canShare : result bool) (share : result unit)
    (r : request) : result (rresp r) :=
  match r return result (rresp r) with
  | RToBlobURL u _ => Ok ("blob:" +:+ u)
  | RLoad _ _ _ => Ok tt
  | RFetchFile f => Ok (file_bytes f)
  | RWriteFile _ _ _ => Ok tt
  | RExec _ _ => Ok exitCode
  | RListDir _ _ => Ok tt
  | RReadFile _ _ => Ok output
  | RClick _ => Ok tt
  | RCanShare _ => canShare
  | RShare _ _ _ => share
  end.

(** Everything works; the user declines the [confirm] dialog. *)
Definition okEnv : Env :=
  mkEnv (fun _ => false) true (engineAnswers 0 [Byte.x02] (Ok true) (Ok tt)).

(** The engine reports exit indicator 1 while an output file is readable. *)
Definition exitOneEnv : Env :=
  mkEnv (fun _ => false) true (engineAnswers 1 [Byte.x02] (Ok true) (Ok tt)).

(** The engine reports 0 and leaves an empty output. *)
Definition emptyOutputEnv : Env :=
  mkEnv (fun _ => false) true (engineAnswers 0 [] (Ok true) (Ok tt)).

(** The share sheet is dismissed: [navigator.share] rejects. *)
Definition shareRejectedEnv : Env :=
  mkEnv (fun _ => false) true
        (engineAnswers 0 [Byte.x02] (Ok true)
                       (Fail (mkError "Share canceled"))).

(** No [navigator.share] at all. *)
Definition noShareEnv : Env :=
  mkEnv (fun _ => false) false
        (engineAnswers 0 [Byte.x02] (Ok false) (Ok tt)).

(** [navigator.canShare] answers false for file payloads. *)
Definition cannotShareFilesEnv : Env :=
  mkEnv (fun _ => false) true
        (engineAnswers 0 [Byte.x02] (Ok false) (Ok tt)).

(** A session with a file selected and its metadata loaded. *)
Definition readySession : Session :=
  mkSession (Some clip) (Some 0%nat) 120 25 75 false true true.

Definition readyWorld : World :=
  mkWorld readySession (Some (mkVideo 120 0 false)) None "" {[ 0%nat ]}
          1%nat 0%nat.

(** The same while a trim is in flight, the engine already loaded. *)
Definition busyWorld : World :=
  mkWorld (setLoading true readySession) (Some (mkVideo 120 0 false))
          (Some 0%nat) "" {[ 0%nat ]} 1%nat 1%nat.

(** Select a file, load its metadata, press Trim and let every request up
    to the engine invocation settle: the first [exec] is in flight. *)
Definition untilFirstExec : list (Env * Input) :=
  [(okEnv, SelectFile (Some [clip])); (okEnv, MetadataLoaded 120);
   (okEnv, ClickTrim);
   (okEnv, Settle 0); (okEnv, Settle 0); (okEnv, Settle 0);
   (okEnv, Settle 0); (okEnv, Settle 0)].

(** Press a button again and let the second run reach its [exec]. *)
Definition secondRun (button : Input) : list (Env * Input) :=
  [(okEnv, button); (okEnv, Settle 1); (okEnv, Settle 1)].

(** ** Handler bodies that end by clearing [isProcessing]

    Every path through the body ends with [setLoading(false)] as its last
    call. *)
Inductive resets_last : prog unit -> Prop :=
| resets_done (k : unit -> prog unit) :
    (forall x, k x = Ret tt \/ exists e, k x = Throw e) ->
    resets_last (Act (ASetLoading false) k)
| resets_act (a : action) (k : aresp a -> prog unit) :
    (forall x, resets_last (k x)) -> resets_last (Act a k)
| resets_req (r : request) (k : result (rresp r) -> prog unit) :
    (forall x, resets_last (k x)) -> resets_last (Req r k).

Definition task_resets (t : Suspended) : Prop :=
  match t with
  | Susp r k => forall x, resets_last (k x)
  end.

(** ** Time labels

    [Math.floor] is [Qfloor].  The remainder operator [%] of JavaScript
    truncates its quotient towards zero. *)
Definition Qtrunc (x : Q) : Z := Z.quot (Qnum x) (Zpos (Qden x)).

Definition jsRem (x y : Q) : Q := x - y * inject_Z (Qtrunc (x / y)).

(** The first [k] characters of [rest] followed by [fill] repeated. *)
Fixpoint cycle (k : nat) (fill rest : string) : string :=
  match k with
  | O => EmptyString
  | S k' =>
      match rest with
      | String c r => String c (cycle k' fill r)
      | EmptyString =>
          match fill with
          | String c r => String c (cycle k' fill r)
          | EmptyString => EmptyString
          end
      end
  end.

(** [s.padStart(n, fill)]. *)
Definition padStart (n : nat) (fill : string) (s : string) : string :=
  if (n <=? String.length s)%nat then s
  else cycle (n - String.length s) fill fill +:+ s.

(** [formatTime] (lines 21-25). *)
Definition formatTime (seconds : Q) : string :=
  let mins := Qfloor (seconds / 60) in
  let secs := Qfloor (jsRem seconds 60) in
  string_of_Z mins +:+ ":" +:+ padStart 2 "0" (string_of_Z secs).

(** ** Predicates used by the further properties *)

(** Where the bounds can drift while every slider value stays inside
    [0,100]. *)
Definition near_range (w : World) : Prop :=
  -1 <= startTime (session w) /\
  startTime (session w) <= 100 /\
  startTime (session w) < endTime (session w) /\
  0 <= endTime (session w) /\
  endTime (session w) <= 101.

Definition slider_value (c : SliderCall) : Q :=
  match c with
  | SetStartFraction v => v
  | SetEndFraction v => v
  end.

Definition on_track (c : SliderCall) : Prop :=
  0 <= slider_value c /\ slider_value c <= 100.

(** The file, its preview address and the visibility flags agree, and the
    preview address is a live, already issued object URL. *)
Definition tidy (w : World) : Prop :=
  (is_Some (currentFile (session w)) <-> is_Some (currentUrl (session w))) /\
  (showActions (session w) = true <-> is_Some (currentFile (session w))) /\
  (showTrimControls (session w) = true -> is_Some (currentFile (session w)))
  /\
  (forall u, currentUrl (session w) = Some u -> u ∈ liveUrls w) /\
  (forall u, u ∈ liveUrls w -> (u < nextUrl w)%nat).

(** The same after a render: the video element is mounted exactly when
    there is a preview address. *)
Definition coherent (w : World) : Prop :=
  tidy w /\ (is_Some (videoRef w) <-> is_Some (currentUrl (session w))).

(** What a running handler may change: [isProcessing], the engine ref and
    the registry of object URLs, which only grows by fresh handles. *)
Definition async_frame (w w' : World) : Prop :=
  session w' = setLoading (loading (session w')) (session w) /\
  videoRef w' = videoRef w /\
  fileInputValue w' = fileInputValue w /\
  liveUrls w ⊆ liveUrls w' /\
  (nextUrl w <= nextUrl w')%nat /\
  (forall u, u ∈ liveUrls w' -> u ∈ liveUrls w \/ (nextUrl w <= u < nextUrl w')%nat).

(** Requests served by a loaded engine. *)
Definition is_engine_io (e : event) : bool :=
  match e with
  | EReq (RWriteFile _ _ _) | EReq (RExec _ _)
  | EReq (RListDir _ _) | EReq (RReadFile _ _) => true
  | _ => false
  end.

Definition is_read (e : event) : bool :=
  match e with EReq (RReadFile _ _) => true | _ => false end.

Definition is_timer (e : event) : bool :=
  match e with EAct (ASetTimeout _ _) => true | _ => false end.

Definition creates_url (e : event) : bool :=
  match e with EAct (ACreateObjectURL _) => true | _ => false end.

(** The application after a video was selected, and after its metadata
    arrived. *)
Definition selectedSystem : System :=
  sync (fst (handleFileChange (Some [clip]) initialWorld)) [] initialSystem.

Definition loadedSystem : System :=
  sync (handleLoadedMetadata
          (setVideoRef (Some (mkVideo 120 0 false)) (world selectedSystem)))
       [] selectedSystem.

(** The application right after Trim was pressed. *)
Definition trimmingSystem : System :=
  spawn okEnv (handleTrim baseURL_selfhosted (session (world loadedSystem)))
        loadedSystem.

(** [isProcessing] is true only while some request is pending. *)
Definition busy_has_task (sys : System) : Prop :=
  loading (session (world sys)) = true -> pending sys <> [].


Definition is_dispatch (e : event) : bool :=
  match e with EAct (ADispatchClick _) => true | _ => false end.

(** No native share, and clicking an anchor throws. *)
Definition clickThrowsEnv : Env :=
  mkEnv (fun _ => false) false
        (fun r =>
           match r return result (rresp r) with
           | RClick _ => Fail (mkError "click blocked")
           | r' => engineAnswers 0 [Byte.x02] (Ok false) (Ok tt) r'
           end).

(** The engine runtime cannot be loaded. *)
Definition loadFailsEnv : Env :=
  mkEnv (fun _ => false) true
        (fun r =>
           match r return result (rresp r) with
           | RLoad _ _ _ => Fail (mkError "failed to import ffmpeg-core.js")
           | r' => engineAnswers 0 [Byte.x02] (Ok true) (Ok tt) r'
           end).

Definition is_slide (i : Input) : bool :=
  match i with Slide _ => true | _ => false end.

(** ** The setters in binary64

    The numbers of the program are IEEE 754 binary64 values.  [b64 m e] is
    [m * 2^e] rounded to binary64; subtraction, addition and comparison
    are those of [SpecFloat] at precision 53 and maximal exponent 1024. *)
Definition binary64 : Type := spec_float.

Definition b64 (m e : Z) : binary64 := binary_normalize 53 1024 m e false.

Definition sub64 (x y : binary64) : binary64 := SFsub 53 1024 x y.
Definition add64 (x y : binary64) : binary64 := SFadd 53 1024 x y.

(** [x >= y] and [x <= y]; both are false when an operand is NaN. *)
Definition geb64 (x y : binary64) : bool := SFleb y x.
Definition leb64 (x y : binary64) : bool := SFleb x y.

(** The two bounds, as [useState] holds them. *)
Record Bounds64 := mkBounds64 {
  startTime64 : binary64;
  endTime64 : binary64
}.

Definition initialBounds64 : Bounds64 := mkBounds64 (b64 0 0) (b64 100 0).

(** The state update of [handleStartTimeChange] (lines 96-100). *)
Definition handleStartTimeChange64 (value : binary64) (b : Bounds64)
    : Bounds64 :=
  if geb64 value (endTime64 b)
  then mkBounds64 (sub64 (endTime64 b) (b64 1 0)) (endTime64 b)
  else mkBounds64 value (endTime64 b).

(** The state update of [handleEndTimeChange] (lines 110-114). *)
Definition handleEndTimeChange64 (value : binary64) (b : Bounds64)
    : Bounds64 :=
  if leb64 value (startTime64 b)
  then mkBounds64 (startTime64 b) (add64 (startTime64 b) (b64 1 0))
  else mkBounds64 (startTime64 b) value.

(** ** Magnitudes on which binary64 decides as the rationals do *)

(** 2^53, up to which every integer is a binary64 value. *)
Definition twoTo53 : Q := 9007199254740992.

(** Slider values whose neighbours at distance one are still exact. *)
Definition maxSafe : Q := 9007199254740990.

Definition safe_value (c : SliderCall) : Prop :=
  - maxSafe <= slider_value c /\ slider_value c <= maxSafe.

Definition safe_bounds (w : World) : Prop :=
  startTime (session w) < endTime (session w) /\
  - (maxSafe + 1) <= startTime (session w) /\
  startTime (session w) <= maxSafe /\
  - maxSafe <= endTime (session w) /\
  endTime (session w) <= maxSafe + 1.

(** [Number.MAX_VALUE], the largest finite binary64 value. *)
Definition Number_MAX_VALUE : Q := inject_Z (2 ^ 1024 - 2 ^ 971).

(** [navigator.share] exists, [navigator.canShare] answers false for the
    file, and clicking an anchor throws. *)
Definition cannotShareClickThrowsEnv : Env :=
  mkEnv (fun _ => false) true
        (fun r =>
           match r return result (rresp r) with
           | RClick _ => Fail (mkError "click blocked")
           | r' => engineAnswers 0 [Byte.x02] (Ok false) (Ok tt) r'
           end).

(** * Properties *)

(** ** The range setters *)

(** The derived times of a 120 s video trimmed to 25%-75%: the window
    starts at 30 s and lasts 60 s. *)
Example seconds_of_ready_session :
  startTimeInSeconds readySession == 30 /\ duration readySession == 60.
Proof. split; reflexivity. Qed.

Lemma Qle_bool_false (x y : Q) : Qle_bool x y = false -> y < x.
Proof.
  intros H. apply Qnot_le_lt. intros Hle.
  apply Qle_bool_iff in Hle. congruence.
Qed.

Lemma start_after_start (v : Q) (w : World) :
  startTime (session (handleStartTimeChange v w)) =
  if Qle_bool (endTime (session w)) v then endTime (session w) - 1 else v.
Proof.
  unfold handleStartTimeChange.
  destruct (Qle_bool (endTime (session w)) v); reflexivity.
Qed.

Lemma end_after_start (v : Q) (w : World) :
  endTime (session (handleStartTimeChange v w)) = endTime (session w).
Proof.
  unfold handleStartTimeChange.
  destruct (Qle_bool (endTime (session w)) v); reflexivity.
Qed.

Lemma end_after_end (v : Q) (w : World) :
  endTime (session (handleEndTimeChange v w)) =
  if Qle_bool v (startTime (session w)) then startTime (session w) + 1 else v.
Proof.
  unfold handleEndTimeChange.
  destruct (Qle_bool v (startTime (session w))); reflexivity.
Qed.

Lemma start_after_end (v : Q) (w : World) :
  startTime (session (handleEndTimeChange v w)) = startTime (session w).
Proof.
  unfold handleEndTimeChange.
  destruct (Qle_bool v (startTime (session w))); reflexivity.
Qed.

Lemma slider_safe (c : SliderCall) (w : World) :
  safe_value c -> safe_bounds w -> safe_bounds (slider c w).
Proof.
  unfold safe_value, safe_bounds, maxSafe.
  intros [Hlo Hhi] (Hlt & Ha & Hb & Hc & Hd).
  destruct c as [v | v]; unfold slider; simpl in Hlo, Hhi.
  - rewrite start_after_start, end_after_start.
    destruct (Qle_bool (endTime (session w)) v) eqn:E.
    + repeat split; lra.
    + apply Qle_bool_false in E. repeat split; lra.
  - rewrite start_after_end, end_after_end.
    destruct (Qle_bool v (startTime (session w))) eqn:E.
    + repeat split; lra.
    + apply Qle_bool_false in E. repeat split; lra.
Qed.

Lemma sliders_safe (cs : list SliderCall) :
  Forall safe_value cs ->
  forall w, safe_bounds w -> safe_bounds (sliders cs w).
Proof.
  induction 1 as [| c cs Hc Hcs IH]; intros w Hw; simpl.
  - exact Hw.
  - apply IH. apply slider_safe; assumption.
Qed.

Lemma range_ok_safe (w : World) : range_ok w -> safe_bounds w.
Proof.
  unfold range_ok, safe_bounds, maxSafe. intros (H0 & Hlt & H100).
  repeat split; lra.
Qed.

Lemma start_setter_range_iff (v : Q) (w : World) :
  range_ok w -> 0 <= v ->
  (range_ok (handleStartTimeChange v w) <->
   v < endTime (session w) \/ 1 <= endTime (session w)).
Proof.
  unfold range_ok. intros (H0 & Hlt & H100) Hv.
  rewrite start_after_start, end_after_start.
  destruct (Qle_bool (endTime (session w)) v) eqn:E.
  - apply Qle_bool_iff in E. split.
    + intros (Hs & _ & _). right. lra.
    + intros [Hn | Hone]; repeat split; lra.
  - apply Qle_bool_false in E. split.
    + intros _. left. exact E.
    + intros _. repeat split; lra.
Qed.

Lemma end_setter_range_iff (v : Q) (w : World) :
  range_ok w -> v <= 100 ->
  (range_ok (handleEndTimeChange v w) <->
   startTime (session w) < v \/ startTime (session w) <= 99).
Proof.
  unfold range_ok. intros (H0 & Hlt & H100) Hv.
  rewrite start_after_end, end_after_end.
  destruct (Qle_bool v (startTime (session w))) eqn:E.
  - apply Qle_bool_iff in E. split.
    + intros (_ & _ & He). right. lra.
    + intros [Hn | Hone]; repeat split; lra.
  - apply Qle_bool_false in E. split.
    + intros _. left. exact E.
    + intros _. repeat split; lra.
Qed.

(** C1, as the code has it: the setters compare and store, they clamp
    nothing.  Over any sequence of setter calls whose values have
    magnitude at most 2^53 - 2, from a state with
    [0 <= startFraction < endFraction <= 100], the order
    [startFraction < endFraction] holds after every call.  The full
    invariant survives a call [setStartFraction v] with [0 <= v] exactly
    when the value is stored as given ([v < endFraction]) or
    [endFraction >= 1]; it survives [setEndFraction v] with [v <= 100]
    exactly when the value is stored as given ([startFraction < v]) or
    [startFraction <= 99]. *)
Theorem sliders_keep_order (cs : list SliderCall) (w : World) :
  (Forall safe_value cs -> range_ok w -> ordered (sliders cs w)) /\
  (forall v, range_ok w -> 0 <= v ->
             (range_ok (slider (SetStartFraction v) w) <->
              v < endTime (session w) \/ 1 <= endTime (session w))) /\
  (forall v, range_ok w -> v <= 100 ->
             (range_ok (slider (SetEndFraction v) w) <->
              startTime (session w) < v \/ startTime (session w) <= 99)).
Proof.
  split; [| split].
  - intros Hcs Hw.
    destruct (sliders_safe cs Hcs w (range_ok_safe w Hw)) as (Hlt & _).
    exact Hlt.
  - intros v. apply start_setter_range_iff.
  - intros v. apply end_setter_range_iff.
Qed.

Lemma range_ok_initial : range_ok initialWorld.
Proof. unfold range_ok; simpl. repeat split; lra. Qed.

Lemma sliders_keep_order_witness :
  ordered (sliders [SetEndFraction 0.5; SetStartFraction 0.5;
                    SetEndFraction 0] initialWorld)
  /\ range_ok (slider (SetStartFraction 100) initialWorld)
  /\ range_ok (slider (SetEndFraction 0) initialWorld).
Proof.
  destruct (sliders_keep_order
              [SetEndFraction 0.5; SetStartFraction 0.5; SetEndFraction 0]
              initialWorld) as (Hord & Hs & He).
  split; [| split].
  - apply Hord; [| exact range_ok_initial].
    repeat constructor; unfold maxSafe; simpl; lra.
  - apply (Hs 100 range_ok_initial); [lra |]. right. simpl. lra.
  - apply (He 0 range_ok_initial); [lra |]. right. simpl. lra.
Defined.

(** C1 refuted as stated, with values a range input delivers: from the
    initial bounds (0, 100), [setEndFraction 0.5] gives (0, 0.5) and
    [setStartFraction 0.5] then stores 0.5 - 1, below 0; from (99.5, 100),
    [setEndFraction 50] stores 99.5 + 1, above 100.  All these values are
    exact in binary64. *)
Lemma track_values_leave_range :
  range_ok initialWorld /\
  range_ok (slider (SetEndFraction 0.5) initialWorld) /\
  startTime (session (sliders [SetEndFraction 0.5; SetStartFraction 0.5]
                              initialWorld)) = 0.5 - 1 /\
  ~ range_ok (sliders [SetEndFraction 0.5; SetStartFraction 0.5]
                      initialWorld) /\
  range_ok (slider (SetStartFraction 99.5) initialWorld) /\
  endTime (session (sliders [SetStartFraction 99.5; SetEndFraction 50]
                            initialWorld)) = 99.5 + 1 /\
  ~ range_ok (sliders [SetStartFraction 99.5; SetEndFraction 50]
                      initialWorld).
Proof.
  split; [exact range_ok_initial |].
  split; [unfold range_ok; simpl; repeat split; lra |].
  split; [reflexivity |].
  split; [unfold range_ok; simpl; intros (H & _); lra |].
  split; [unfold range_ok; simpl; repeat split; lra |].
  split; [reflexivity |].
  unfold range_ok; simpl; intros (_ & _ & H); lra.
Qed.

(** Inputs inside [0,100] can leave the range as well once the window
    touches a border: with bounds (0, 0.5), [setStartFraction 0.5] stores
    0.5 - 1. *)
Example narrow_window_start :
  let w := slider (SetEndFraction 0.5) initialWorld in
  range_ok w /\
  startTime (session (slider (SetStartFraction 0.5) w)) = 0.5 - 1 /\
  ~ range_ok (slider (SetStartFraction 0.5) w).
Proof.
  simpl. split; [| split].
  - unfold range_ok; simpl. repeat split; lra.
  - reflexivity.
  - unfold range_ok; simpl. intros (H & _). lra.
Qed.

(** Likewise at the upper border: with bounds (99.5, 100),
    [setEndFraction 50] stores 99.5 + 1. *)
Example narrow_window_end :
  let w := slider (SetStartFraction 99.5) initialWorld in
  range_ok w /\
  endTime (session (slider (SetEndFraction 50) w)) = 99.5 + 1 /\
  ~ range_ok (slider (SetEndFraction 50) w).
Proof.
  simpl. split; [| split].
  - unfold range_ok; simpl. repeat split; lra.
  - reflexivity.
  - unfold range_ok; simpl. intros (_ & _ & H). lra.
Qed.




(** The same happens at the lower end of the safe range: -2^53 - 1 rounds
    to -2^53. *)
Example coerced_start_equals_end_at_minus_2_53 :
  handleStartTimeChange64 (b64 0 0) (mkBounds64 (b64 (-1) 54) (b64 (-1) 53))
  = mkBounds64 (b64 (-1) 53) (b64 (-1) 53).
Proof. vm_compute. reflexivity. Qed.

(** On the track the binary64 setters store what the rationals say: from
    (0, 100), [setEndFraction 0.5] and [setStartFraction 0.5] give
    (-0.5, 0.5). *)
Example narrow_window_start64 :
  handleStartTimeChange64 (b64 1 (-1))
    (handleEndTimeChange64 (b64 1 (-1)) initialBounds64)
  = mkBounds64 (b64 (-1) (-1)) (b64 1 (-1)).
Proof. vm_compute. reflexivity. Qed.

(** ** File selection, metadata and clear *)

(** C5, as the code has it: when a video file is selected and the
    [loadedmetadata] event of the preview follows, the new file and its
    duration are stored and [endFraction] becomes 100, whatever the bounds
    were; [startFraction] keeps the value it had before the selection. *)
Theorem file_change_then_metadata (baseURL : string) (env env' : Env)
    (sys : System) (files : option (list File)) (file : File) (d : Q) :
  files ≫= head = Some file ->
  String.prefix "video/" (file_type file) = true ->
  exists sys1 sys2,
    step baseURL env (SelectFile files) sys = Some sys1 /\
    step baseURL env' (MetadataLoaded d) sys1 = Some sys2 /\
    currentFile (session (world sys2)) = Some file /\
    videoDuration (session (world sys2)) = d /\
    endTime (session (world sys2)) = 100 /\
    startTime (session (world sys2)) = startTime (session (world sys)).
Proof.
  intros Hfile Hvideo.
  destruct sys as [[[f u dur st en ld tc ac] vr fr fi lu nu ne] pend hist].
  unfold step at 1. unfold handleFileChange. rewrite Hfile, Hvideo.
  destruct u as [u |]; destruct vr as [v |]; cbn;
    (eexists; eexists; split; [reflexivity |]; split; [reflexivity |]);
    repeat split; reflexivity.
Qed.

Lemma file_change_then_metadata_witness :
  exists sys1 sys2,
    step baseURL_selfhosted okEnv (SelectFile (Some [clip2]))
         (mkSystem readyWorld [] []) = Some sys1 /\
    step baseURL_selfhosted okEnv (MetadataLoaded 60) sys1 = Some sys2 /\
    currentFile (session (world sys2)) = Some clip2 /\
    videoDuration (session (world sys2)) = 60 /\
    endTime (session (world sys2)) = 100 /\
    startTime (session (world sys2)) = 25.
Proof.
  apply (file_change_then_metadata baseURL_selfhosted okEnv okEnv
           (mkSystem readyWorld [] []) (Some [clip2]) clip2 60);
    reflexivity.
Defined.

(** C5 refuted as stated: select a file, load its metadata, move the start
    handle to 30, select another file and load its metadata.  The start
    bound is still 30, not 0. *)
Lemma start_kept_across_file_change :
  exists sys,
    steps baseURL_selfhosted
          [(okEnv, SelectFile (Some [clip])); (okEnv, MetadataLoaded 120);
           (okEnv, Slide (SetStartFraction 30));
           (okEnv, SelectFile (Some [clip2])); (okEnv, MetadataLoaded 60)]
          initialSystem = Some sys /\
    currentFile (session (world sys)) = Some clip2 /\
    startTime (session (world sys)) = 30 /\
    ~ startTime (session (world sys)) == 0 /\
    endTime (session (world sys)) = 100.
Proof.
  eexists. split; [vm_compute; reflexivity |].
  repeat split; try reflexivity.
  simpl. intros H. lra.
Qed.

(** C8, as the code has it: [clear()] resets the file, the preview
    address, the duration, both bounds and both visibility flags to their
    initial values, empties the file input and revokes the preview
    address it held; it leaves [isProcessing] as it was, so the session is
    the initial one whenever no trim or share is in flight. *)
Theorem clear_resets_all_but_loading (w : World) :
  currentFile (session (handleClear w)) = None /\
  currentUrl (session (handleClear w)) = None /\
  videoDuration (session (handleClear w)) = 0 /\
  startTime (session (handleClear w)) = 0 /\
  endTime (session (handleClear w)) = 100 /\
  showTrimControls (session (handleClear w)) = false /\
  showActions (session (handleClear w)) = false /\
  fileInputValue (handleClear w) = "" /\
  loading (session (handleClear w)) = loading (session w) /\
  (forall u, currentUrl (session w) = Some u ->
             u ∉ liveUrls (handleClear w)) /\
  (loading (session w) = false -> session (handleClear w) = initialSession).
Proof.
  unfold handleClear.
  destruct (currentUrl (session w)) as [u |] eqn:Hu; simpl;
    repeat (split; [reflexivity |]).
  - split.
    + intros u' Hu'. assert (u' = u) as -> by congruence.
      apply not_elem_of_difference. right. apply elem_of_singleton.
      reflexivity.
    + intros Hl. unfold initialSession. rewrite <- Hl. reflexivity.
  - split.
    + intros u' Hu'. discriminate Hu'.
    + intros Hl. unfold initialSession. rewrite <- Hl. reflexivity.
Qed.

Lemma clear_resets_all_but_loading_witness :
  (0%nat ∉ liveUrls (handleClear readyWorld)) /\
  session (handleClear readyWorld) = initialSession.
Proof.
  destruct (clear_resets_all_but_loading readyWorld)
    as (_ & _ & _ & _ & _ & _ & _ & _ & _ & Hrevoked & Hinit).
  split.
  - apply Hrevoked. reflexivity.
  - apply Hinit. reflexivity.
Defined.

(** C8 refuted as stated: select a file, load its metadata, start a trim
    and press Clear while the engine is still loading.  The session then
    has [isProcessing] true, which the initial session has not. *)
Lemma clear_during_trim_keeps_loading :
  exists sys,
    steps baseURL_selfhosted
          [(okEnv, SelectFile (Some [clip])); (okEnv, MetadataLoaded 120);
           (okEnv, ClickTrim); (okEnv, ClickClear)]
          initialSystem = Some sys /\
    loading (session (world sys)) = true /\
    session (world sys) <> initialSession.
Proof.
  eexists. split; [vm_compute; reflexivity |].
  split; [reflexivity |].
  simpl. discriminate.
Qed.

(** ** Trim and share: the guard at the entry *)

(** C10: without a source file both [handleTrim] and [handleShare] return
    at once: the world is unchanged (so [isProcessing] is not set), no call
    is made (no engine invocation, no alert), nothing is left suspended
    and the promise resolves. *)
Theorem no_file_no_op (baseURL : string) (s : Session) (env : Env)
    (w : World) :
  currentFile s = None ->
  run env (handleTrim baseURL s) w = (w, [], Ok tt) /\
  run env (handleShare baseURL s) w = (w, [], Ok tt) /\
  advance env (handleTrim baseURL s) w = (w, [], None) /\
  advance env (handleShare baseURL s) w = (w, [], None).
Proof.
  intros Hnone. unfold handleTrim, handleShare. rewrite Hnone.
  repeat split.
Qed.

Lemma no_file_no_op_witness :
  run okEnv (handleTrim baseURL_selfhosted initialSession) initialWorld
  = (initialWorld, [], Ok tt) /\
  run okEnv (handleShare baseURL_selfhosted initialSession) initialWorld
  = (initialWorld, [], Ok tt).
Proof.
  destruct (no_file_no_op baseURL_selfhosted initialSession okEnv
                          initialWorld eq_refl) as (Ht & Hs & _).
  split; [exact Ht | exact Hs].
Defined.

(** ** Walking the paths of a handler *)

Ltac expose_calls :=
  unfold handleTrim, handleShare, loadFFmpeg,
    setLoadingP, readFfmpegRef, new_FFmpeg, writeFfmpegRef,
    URL_createObjectURL, appendChild, removeChild, dispatchClick, setTimeout,
    confirm, window_open, alert, navigator_share_defined, toBlobURL,
    ffmpeg_load, fetchFile, ffmpeg_writeFile, ffmpeg_exec, ffmpeg_listDir,
    ffmpeg_readFile, click, navigator_canShare, navigator_share, act, await,
    mbind, prog_bind, calls, final_world, outcome.

(** One step of case analysis on whatever the run is waiting for; [known]
    rewrites with the answers fixed by the hypotheses. *)
Ltac walk known :=
  repeat (cbn;
          first
            [ progress known
            | match goal with
              | |- context [match ffmpegRef ?w with _ => _ end] =>
                  destruct (ffmpegRef w) eqn:?
              | |- context [match respond ?env ?r with _ => _ end] =>
                  destruct (respond env r) as [? | ?] eqn:?
              | |- context [if navigatorShare ?env then _ else _] =>
                  destruct (navigatorShare env) eqn:?
              | |- context [if confirmAnswer ?env ?m then _ else _] =>
                  destruct (confirmAnswer env m) eqn:?
              | |- context [if ?b then _ else _] => destruct b eqn:?
              end ]);
  cbn.

(** Membership in an explicit trace. *)
Ltac find_in_list :=
  cbn; repeat first [left; reflexivity | right].

(** ** Laws of [run] *)

Lemma run_bind {A B : Type} (env : Env) (p : prog A) (f : A -> prog B) :
  forall w,
    run env (bind p f) w =
    match run env p w with
    | (w1, t1, Ok a) =>
        let '(w2, t2, o) := run env (f a) w1 in (w2, t1 ++ t2, o)
    | (w1, t1, Fail e) => (w1, t1, Fail e)
    end.
Proof.
  induction p as [a | e | a k IH | r k IH]; intros w; simpl.
  - destruct (run env (f a) w) as [[w2 t2] o]. reflexivity.
  - reflexivity.
  - destruct (perform env a w) as [x w1]. rewrite IH.
    destruct (run env (k x) w1) as [[w2 t] [b | e]]; [| reflexivity].
    destruct (run env (f b) w2) as [[w3 t3] o]. reflexivity.
  - rewrite IH.
    destruct (run env (k (respond env r)) w) as [[w2 t] [b | e]];
      [| reflexivity].
    destruct (run env (f b) w2) as [[w3 t3] o]. reflexivity.
Qed.

(** [finally { setLoading(false) }] runs after the body whatever the body
    did, and passes the body's outcome on. *)
Lemma run_try_finally_reset {A : Type} (env : Env) (p : prog A) :
  forall w,
    run env (try_finally p (setLoadingP false)) w =
    (withSession (setLoading false) (final_world (run env p w)),
     calls (run env p w) ++ [EAct (ASetLoading false)],
     outcome (run env p w)).
Proof.
  induction p as [a | e | a k IH | r k IH]; intros w; simpl.
  - reflexivity.
  - reflexivity.
  - destruct (perform env a w) as [x w1]. rewrite IH.
    destruct (run env (k x) w1) as [[w2 t] o]. reflexivity.
  - rewrite IH.
    destruct (run env (k (respond env r)) w) as [[w2 t] o]. reflexivity.
Qed.

(** A [catch] block that only alerts swallows every failure. *)
Lemma run_try_catch_alert (env : Env) (p : prog unit)
    (text : Error -> string) :
  forall w,
    outcome (run env (try_catch p (fun e => alert (text e))) w) = Ok tt.
Proof.
  induction p as [[] | e | a k IH | r k IH]; intros w; simpl.
  - reflexivity.
  - reflexivity.
  - destruct (perform env a w) as [x w1]. specialize (IH x w1).
    destruct (run env (try_catch (k x) _) w1) as [[w2 t] o]. exact IH.
  - specialize (IH (respond env r) w).
    destruct (run env (try_catch (k (respond env r)) _) w) as [[w2 t] o].
    exact IH.
Qed.

Lemma handleTrim_guarded (baseURL : string) (s : Session) (f : File) :
  currentFile s = Some f ->
  exists body text, handleTrim baseURL s = guarded body text.
Proof.
  intros Hf. unfold handleTrim. rewrite Hf.
  eexists. exists (fun e => "Error trimming video: " +:+ message e).
  reflexivity.
Qed.

Lemma handleShare_guarded (baseURL : string) (s : Session) (f : File) :
  currentFile s = Some f ->
  exists body text, handleShare baseURL s = guarded body text.
Proof.
  intros Hf. unfold handleShare. rewrite Hf.
  eexists. exists (fun e => "Error: " +:+ message e).
  reflexivity.
Qed.

Lemma run_guarded (env : Env) (body : prog unit) (text : Error -> string)
    (w : World) :
  loading (session (final_world (run env (guarded body text) w))) = false /\
  head (calls (run env (guarded body text) w)) = Some (EAct (ASetLoading true))
  /\ last (calls (run env (guarded body text) w))
     = Some (EAct (ASetLoading false)) /\
  outcome (run env (guarded body text) w) = Ok tt.
Proof.
  unfold guarded. simpl. rewrite run_try_finally_reset.
  pose proof (run_try_catch_alert env body text
                (withSession (setLoading true) w)) as Hok.
  destruct (run env (try_catch body _) (withSession (setLoading true) w))
    as [[w1 t] o].
  unfold calls, final_world, outcome in *. simpl in *. repeat split.
  - rewrite app_comm_cons. apply last_snoc.
  - exact Hok.
Qed.

Lemma run_guarded_head (baseURL : string) (s : Session) (f : File)
    (env : Env) (w : World) :
  currentFile s = Some f ->
  head (calls (run env (handleTrim baseURL s) w))
  = Some (EAct (ASetLoading true)) /\
  head (calls (run env (handleShare baseURL s) w))
  = Some (EAct (ASetLoading true)).
Proof.
  intros Hf.
  destruct (handleTrim_guarded baseURL s f Hf) as (b1 & t1 & ->).
  destruct (handleShare_guarded baseURL s f Hf) as (b2 & t2 & ->).
  split; apply run_guarded.
Qed.

(** ** Paths that end by clearing the flag

    In the event loop other handlers run between the awaits of a trim.
    Whatever they do, the step that lets a trim or share finish ends with
    [isProcessing] false. *)

Lemma try_finally_resets (p : prog unit) :
  resets_last (try_finally p (setLoadingP false)).
Proof.
  induction p as [[] | e | a k IH | r k IH]; simpl.
  - apply resets_done. intros x. left. reflexivity.
  - apply resets_done. intros x. right. exists e. reflexivity.
  - apply resets_act. exact IH.
  - apply resets_req. exact IH.
Qed.

Lemma guarded_resets (body : prog unit) (text : Error -> string) :
  resets_last (guarded body text).
Proof.
  unfold guarded. simpl. apply resets_act. intros x.
  apply try_finally_resets.
Qed.

Lemma session_render (w : World) : session (render w) = session w.
Proof.
  unfold render.
  destruct (currentUrl (session w)); destruct (videoRef w); reflexivity.
Qed.

Lemma advance_resets (env : Env) (p : prog unit) :
  resets_last p ->
  forall w,
    match advance env p w with
    | (w', t, None) =>
        loading (session w') = false /\
        last t = Some (EAct (ASetLoading false))
    | (_, _, Some task) => task_resets task
    end.
Proof.
  induction 1 as [k Hk | a k Hk IH | r k Hk IH]; intros w.
  - simpl. destruct (Hk tt) as [-> | [e ->]]; simpl; split; reflexivity.
  - simpl. destruct (perform env a w) as [x w1]. specialize (IH x w1).
    destruct (advance env (k x) w1) as [[w2 t] [task |]].
    + exact IH.
    + destruct IH as [Hl Ht]. split; [exact Hl |].
      destruct t as [| e t]; [discriminate Ht | exact Ht].
  - simpl. destruct (is_await r).
    + exact Hk.
    + specialize (IH (respond env r) w).
      destruct (advance env (k (respond env r)) w) as [[w2 t] [task |]].
      * exact IH.
      * destruct IH as [Hl Ht]. split; [exact Hl |].
        destruct t as [| e t]; [discriminate Ht | exact Ht].
Qed.

Lemma spawn_keeps_resets (env : Env) (p : prog unit) (sys : System) :
  resets_last p \/ p = Ret tt ->
  Forall task_resets (pending sys) ->
  Forall task_resets (pending (spawn env p sys)).
Proof.
  intros Hp Hall. unfold spawn. destruct Hp as [Hp | ->].
  - pose proof (advance_resets env p Hp (world sys)) as H.
    destruct (advance env p (world sys)) as [[w t] [task |]]; simpl.
    + apply Forall_app. split; [exact Hall |]. constructor; [exact H |].
      constructor.
    + exact Hall.
  - simpl. exact Hall.
Qed.

Lemma handler_resets_or_returns (baseURL : string) (s : Session) :
  (resets_last (handleTrim baseURL s) \/ handleTrim baseURL s = Ret tt) /\
  (resets_last (handleShare baseURL s) \/ handleShare baseURL s = Ret tt).
Proof.
  destruct (currentFile s) as [f |] eqn:Hf.
  - destruct (handleTrim_guarded baseURL s f Hf) as (b1 & t1 & ->).
    destruct (handleShare_guarded baseURL s f Hf) as (b2 & t2 & ->).
    split; left; apply guarded_resets.
  - unfold handleTrim, handleShare. rewrite Hf. split; right; reflexivity.
Qed.

(** [handleDownload] has no await: it never stays pending. *)
Lemma download_never_pending (env : Env) (s : Session) (sys : System) :
  pending (spawn env (handleDownload s) sys) = pending sys.
Proof.
  unfold spawn, handleDownload.
  destruct (currentFile s) as [f |]; [| reflexivity].
  destruct (currentUrl s) as [u |]; [| reflexivity].
  expose_calls. cbn.
  destruct (respond env (RClick _)) as [[] | e]; reflexivity.
Qed.

Lemma step_keeps_resets (baseURL : string) (env : Env) (i : Input)
    (sys sys' : System) :
  step baseURL env i sys = Some sys' ->
  Forall task_resets (pending sys) ->
  Forall task_resets (pending sys').
Proof.
  intros Hstep Hall. destruct i; simpl in Hstep.
  - destruct (handleFileChange files (world sys)) as [w1 t].
    injection Hstep as <-. exact Hall.
  - destruct (videoRef (world sys)); [| discriminate Hstep].
    injection Hstep as <-. exact Hall.
  - unfold guard in Hstep.
    destruct (showTrimControls _); [| discriminate Hstep].
    injection Hstep as <-. exact Hall.
  - unfold guard in Hstep.
    destruct (showTrimControls _); [| discriminate Hstep].
    injection Hstep as <-. exact Hall.
  - unfold guard in Hstep.
    destruct (showTrimControls _); [| discriminate Hstep].
    injection Hstep as <-. apply spawn_keeps_resets; [| exact Hall].
    apply handler_resets_or_returns.
  - unfold guard in Hstep.
    destruct (showActions _); [| discriminate Hstep].
    injection Hstep as <-. rewrite download_never_pending. exact Hall.
  - unfold guard in Hstep.
    destruct (showActions _); [| discriminate Hstep].
    injection Hstep as <-. apply spawn_keeps_resets; [| exact Hall].
    apply handler_resets_or_returns.
  - unfold guard in Hstep.
    destruct (showActions _); [| discriminate Hstep].
    injection Hstep as <-. exact Hall.
  - destruct (pending sys !! i) as [[r k] |] eqn:Hi; [| discriminate Hstep].
    assert (task_resets (Susp r k)) as Hk.
    { eapply Forall_lookup_1; eassumption. }
    pose proof (advance_resets env (k (respond env r)) (Hk _) (world sys))
      as Hadv.
    destruct (advance env (k (respond env r)) (world sys))
      as [[w1 t] [task |]]; injection Hstep as <-; simpl.
    + apply Forall_insert; assumption.
    + apply Forall_delete. exact Hall.
Qed.

Lemma reachable_resets (baseURL : string) (sys : System) :
  reachable baseURL sys -> Forall task_resets (pending sys).
Proof.
  intros [script Hscript].
  assert (forall sys0,
             Forall task_resets (pending sys0) ->
             steps baseURL script sys0 = Some sys ->
             Forall task_resets (pending sys)) as Hgen.
  { clear Hscript. induction script as [| [env i] rest IH]; intros sys0 H0 Hs.
    - simpl in Hs. injection Hs as <-. exact H0.
    - simpl in Hs.
      destruct (step baseURL env i sys0) as [sys1 |] eqn:H1;
        [| discriminate Hs].
      eapply IH; [| exact Hs].
      eapply step_keeps_resets; eassumption. }
  eapply Hgen; [| exact Hscript]. constructor.
Qed.

(** In any reachable state, when the settling of a request lets a handler
    finish, [isProcessing] is false afterwards. *)
Lemma settled_run_resets_loading (baseURL : string) (env : Env) (i : nat)
    (sys sys' : System) :
  reachable baseURL sys ->
  step baseURL env (Settle i) sys = Some sys' ->
  (length (pending sys') < length (pending sys))%nat ->
  loading (session (world sys')) = false.
Proof.
  intros Hreach Hstep Hshorter.
  pose proof (reachable_resets baseURL sys Hreach) as Hall.
  simpl in Hstep.
  destruct (pending sys !! i) as [[r k] |] eqn:Hi; [| discriminate Hstep].
  assert (task_resets (Susp r k)) as Hk.
  { eapply Forall_lookup_1; eassumption. }
  pose proof (advance_resets env (k (respond env r)) (Hk _) (world sys))
    as Hadv.
  destruct (advance env (k (respond env r)) (world sys))
    as [[w1 t] [task |]]; injection Hstep as <-; simpl in *.
  - rewrite length_insert in Hshorter. lia.
  - rewrite session_render. apply Hadv.
Qed.

(** C4: a run of [handleTrim] or [handleShare] with a file present starts
    by setting [isProcessing] and, whatever the engine, the browser and
    the user answer (success, failed bootstrap, failed processing, any
    rejected or thrown call), ends with [setLoading(false)] as its last
    call, with [isProcessing] false and with its promise resolved.  The
    same is true path by path: every path through the handler body ends
    with [setLoading(false)]. *)
Theorem loading_reset_on_every_path (baseURL : string) (s : Session)
    (f : File) (env : Env) (w : World) (h : prog unit) :
  currentFile s = Some f ->
  h = handleTrim baseURL s \/ h = handleShare baseURL s ->
  head (calls (run env h w)) = Some (EAct (ASetLoading true)) /\
  last (calls (run env h w)) = Some (EAct (ASetLoading false)) /\
  loading (session (final_world (run env h w))) = false /\
  outcome (run env h w) = Ok tt /\
  resets_last h.
Proof.
  intros Hf Hh.
  assert (exists body text, h = guarded body text) as (body & text & ->).
  { destruct Hh as [-> | ->].
    - eapply handleTrim_guarded; eassumption.
    - eapply handleShare_guarded; eassumption. }
  destruct (run_guarded env body text w) as (H1 & H2 & H3 & H4).
  repeat split; try assumption.
  apply guarded_resets.
Qed.

Lemma loading_reset_on_every_path_witness :
  last (calls (run emptyOutputEnv (handleShare baseURL_selfhosted readySession)
                   readyWorld))
  = Some (EAct (ASetLoading false)) /\
  loading (session (final_world
                      (run okEnv (handleTrim baseURL_selfhosted readySession)
                           readyWorld))) = false.
Proof.
  split.
  - apply (loading_reset_on_every_path baseURL_selfhosted readySession clip
             emptyOutputEnv readyWorld _ eq_refl (or_intror eq_refl)).
  - apply (loading_reset_on_every_path baseURL_selfhosted readySession clip
             okEnv readyWorld _ eq_refl (or_introl eq_refl)).
Defined.

(** ** Engine failures *)

(** In download mode a non-zero exit indicator is a failure: nothing is
    delivered and an error is shown. *)
Lemma trim_nonzero_exit_fails (baseURL : string) (s : Session) (f : File)
    (env : Env) (w : World) (code : Z) :
  currentFile s = Some f ->
  (forall e args, respond env (RExec e args) = Ok code) ->
  code <> 0%Z ->
  existsb is_delivery (calls (run env (handleTrim baseURL s) w)) = false /\
  existsb is_error_alert (calls (run env (handleTrim baseURL s) w)) = true.
Proof.
  intros Hf Hexec Hcode. expose_calls. rewrite Hf.
  walk ltac:(rewrite Hexec); try (split; reflexivity).
  all: exfalso; apply Hcode; apply Z.eqb_eq;
    match goal with
    | H : negb _ = false |- _ => apply Bool.negb_false_iff in H; exact H
    end.
Qed.

(** In both modes an empty output is a failure, whatever the exit
    indicator was. *)
Lemma empty_output_fails (baseURL : string) (s : Session) (f : File)
    (env : Env) (w : World) :
  currentFile s = Some f ->
  (forall e name, respond env (RReadFile e name) = Ok []) ->
  (existsb is_delivery (calls (run env (handleTrim baseURL s) w)) = false /\
   existsb is_error_alert (calls (run env (handleTrim baseURL s) w)) = true)
  /\
  (existsb is_delivery (calls (run env (handleShare baseURL s) w)) = false /\
   existsb is_error_alert (calls (run env (handleShare baseURL s) w)) = true).
Proof.
  intros Hf Hread. split.
  - expose_calls. rewrite Hf.
    walk ltac:(rewrite Hread); split; reflexivity.
  - expose_calls. rewrite Hf.
    walk ltac:(rewrite Hread); split; reflexivity.
Qed.

(** C3 at its failing input: with exit indicator 1 and a readable,
    non-empty output file, [handleShare] makes the [exec] call, shares the
    file and shows no alert; [handleTrim] on the same answers delivers
    nothing and alerts the exit indicator. *)
Theorem share_ignores_exit_code :
  existsb is_exec
          (calls (run exitOneEnv (handleShare baseURL_selfhosted readySession)
                      readyWorld)) = true /\
  existsb is_share
          (calls (run exitOneEnv (handleShare baseURL_selfhosted readySession)
                      readyWorld)) = true /\
  existsb is_alert
          (calls (run exitOneEnv (handleShare baseURL_selfhosted readySession)
                      readyWorld)) = false /\
  existsb is_delivery
          (calls (run exitOneEnv (handleTrim baseURL_selfhosted readySession)
                      readyWorld)) = false /\
  In (EAct (AAlert "Error trimming video: FFmpeg failed with exit code 1"))
     (calls (run exitOneEnv (handleTrim baseURL_selfhosted readySession)
                 readyWorld)).
Proof.
  repeat split; try (vm_compute; reflexivity).
  vm_compute. tauto.
Qed.

(** ** Delivery in share mode *)

Lemma share_unsupported_saves (baseURL : string) (s : Session) (f : File)
    (env : Env) (w : World) :
  currentFile s = Some f ->
  navigatorShare env = false \/
  (forall files, respond env (RCanShare files) = Ok false) ->
  existsb asks_share_support (calls (run env (handleShare baseURL s) w))
  = true ->
  existsb is_share (calls (run env (handleShare baseURL s) w)) = false /\
  In (EAct (AAlert "Share not supported. Video will download instead."))
     (calls (run env (handleShare baseURL s) w)) /\
  exists u,
    In (EReq (RClick (mkAnchor u ("trimmed-" +:+ file_name f) "")))
       (calls (run env (handleShare baseURL s) w)).
Proof.
  intros Hf Hno. expose_calls. rewrite Hf.
  destruct Hno as [Hnav | Hcan].
  - walk ltac:(rewrite Hnav);
      intros Hreached; try discriminate Hreached;
      (split; [reflexivity | split; [find_in_list | eexists; find_in_list]]).
  - walk ltac:(rewrite Hcan);
      intros Hreached; try discriminate Hreached;
      (split; [reflexivity | split; [find_in_list | eexists; find_in_list]]).
Qed.

Lemma share_rejected_alerts (baseURL : string) (s : Session) (f : File)
    (env : Env) (w : World) (e : Error) :
  currentFile s = Some f ->
  navigatorShare env = true ->
  (forall files, respond env (RCanShare files) = Ok true) ->
  (forall files title text,
      respond env (RShare files title text) = Fail e) ->
  existsb asks_share_support (calls (run env (handleShare baseURL s) w))
  = true ->
  existsb is_share (calls (run env (handleShare baseURL s) w)) = true /\
  existsb is_save (calls (run env (handleShare baseURL s) w)) = false /\
  In (EAct (AAlert ("Error: " +:+ message e)))
     (calls (run env (handleShare baseURL s) w)).
Proof.
  intros Hf Hnav Hcan Hshare. expose_calls. rewrite Hf.
  walk ltac:(first [rewrite Hnav | rewrite Hcan | rewrite Hshare]);
    intros Hreached; try discriminate Hreached;
    (split; [reflexivity | split; [reflexivity | find_in_list]]).
Qed.

(** C6, as the code has it: once [handleShare] has a non-empty trimmed
    file, it falls back to a client-side save (an alert, then a click on
    an anchor named "trimmed-<name>") when [navigator.share] is missing or
    [navigator.canShare] answers false for the file, and it does not call
    [navigator.share].  When sharing is supported and [navigator.share]
    rejects, the error is alerted and no save is triggered. *)
Theorem share_falls_back_when_unsupported (baseURL : string) (s : Session)
    (f : File) (env : Env) (w : World) :
  currentFile s = Some f ->
  existsb asks_share_support (calls (run env (handleShare baseURL s) w))
  = true ->
  (navigatorShare env = false \/
   (forall files, respond env (RCanShare files) = Ok false) ->
   existsb is_share (calls (run env (handleShare baseURL s) w)) = false /\
   In (EAct (AAlert "Share not supported. Video will download instead."))
      (calls (run env (handleShare baseURL s) w)) /\
   exists u,
     In (EReq (RClick (mkAnchor u ("trimmed-" +:+ file_name f) "")))
        (calls (run env (handleShare baseURL s) w))) /\
  (forall e,
      navigatorShare env = true ->
      (forall files, respond env (RCanShare files) = Ok true) ->
      (forall files title text,
          respond env (RShare files title text) = Fail e) ->
      existsb is_share (calls (run env (handleShare baseURL s) w)) = true /\
      existsb is_save (calls (run env (handleShare baseURL s) w)) = false /\
      In (EAct (AAlert ("Error: " +:+ message e)))
         (calls (run env (handleShare baseURL s) w))).
Proof.
  intros Hf Hreached. split.
  - intros Hno. eapply share_unsupported_saves; eassumption.
  - intros e Hnav Hcan Hshare. eapply share_rejected_alerts; eassumption.
Qed.

Lemma share_falls_back_when_unsupported_witness :
  (exists u,
      In (EReq (RClick (mkAnchor u "trimmed-clip.mp4" "")))
         (calls (run noShareEnv (handleShare baseURL_selfhosted readySession)
                     readyWorld))) /\
  (exists u,
      In (EReq (RClick (mkAnchor u "trimmed-clip.mp4" "")))
         (calls (run cannotShareFilesEnv
                     (handleShare baseURL_selfhosted readySession)
                     readyWorld))) /\
  existsb is_save
          (calls (run shareRejectedEnv
                      (handleShare baseURL_selfhosted readySession)
                      readyWorld)) = false.
Proof.
  split; [| split].
  - apply (share_falls_back_when_unsupported baseURL_selfhosted readySession
             clip noShareEnv readyWorld eq_refl eq_refl).
    left. reflexivity.
  - apply (share_falls_back_when_unsupported baseURL_selfhosted readySession
             clip cannotShareFilesEnv readyWorld eq_refl eq_refl).
    right. intros files. reflexivity.
  - apply (proj2 (share_falls_back_when_unsupported
                    baseURL_selfhosted readySession clip shareRejectedEnv
                    readyWorld eq_refl eq_refl)
                 (mkError "Share canceled")).
    + reflexivity.
    + intros files. reflexivity.
    + intros files title text. reflexivity.
Defined.

(** C6 refuted as stated: the trimmed file is valid, sharing is supported
    and [navigator.share] rejects.  The handler alerts the error and never
    clicks a download anchor. *)
Lemma rejected_share_is_not_saved :
  existsb asks_share_support
          (calls (run shareRejectedEnv
                      (handleShare baseURL_selfhosted readySession)
                      readyWorld)) = true /\
  existsb is_share
          (calls (run shareRejectedEnv
                      (handleShare baseURL_selfhosted readySession)
                      readyWorld)) = true /\
  existsb is_save
          (calls (run shareRejectedEnv
                      (handleShare baseURL_selfhosted readySession)
                      readyWorld)) = false /\
  In (EAct (AAlert "Error: Share canceled"))
     (calls (run shareRejectedEnv
                 (handleShare baseURL_selfhosted readySession) readyWorld)).
Proof.
  repeat split; try (vm_compute; reflexivity).
  vm_compute. tauto.
Qed.

(** ** Calls made while a run is in flight *)

Lemma exec_dispatched_with_engine (baseURL : string) (s : Session) (f : File)
    (env : Env) (w : World) (e : Engine) (bytes : list Byte.byte) :
  currentFile s = Some f ->
  ffmpegRef w = Some e ->
  respond env (RFetchFile f) = Ok bytes ->
  respond env (RWriteFile e "input.mp4" bytes) = Ok tt ->
  In (EReq (RExec e (trimArgs s))) (calls (run env (handleTrim baseURL s) w))
  /\
  In (EReq (RExec e (trimArgs s))) (calls (run env (handleShare baseURL s) w)).
Proof.
  intros Hf He Hfetch Hwrite. split.
  - expose_calls. rewrite Hf. cbn. rewrite He. cbn. rewrite Hfetch. cbn.
    rewrite Hwrite. cbn.
    destruct (run env _ _) as [[w2 t] o]. find_in_list.
  - expose_calls. rewrite Hf. cbn. rewrite He. cbn. rewrite Hfetch. cbn.
    rewrite Hwrite. cbn.
    destruct (run env _ _) as [[w2 t] o]. find_in_list.
Qed.

(** C2, as the code has it: neither handler consults [isProcessing]; its
    body is the same whether the flag is set or not in the state it
    captured.  With a source file present, a call made while the flag is
    true sets it again and, with the engine handle cached and the input
    written, dispatches its own [exec]. *)
Theorem in_flight_flag_not_consulted (baseURL : string) (s : Session)
    (b : bool) :
  handleTrim baseURL (setLoading b s) = handleTrim baseURL s /\
  handleShare baseURL (setLoading b s) = handleShare baseURL s /\
  (forall f env w e bytes,
      currentFile s = Some f ->
      loading (session w) = true ->
      ffmpegRef w = Some e ->
      respond env (RFetchFile f) = Ok bytes ->
      respond env (RWriteFile e "input.mp4" bytes) = Ok tt ->
      head (calls (run env (handleTrim baseURL s) w))
      = Some (EAct (ASetLoading true)) /\
      In (EReq (RExec e (trimArgs s)))
         (calls (run env (handleTrim baseURL s) w)) /\
      head (calls (run env (handleShare baseURL s) w))
      = Some (EAct (ASetLoading true)) /\
      In (EReq (RExec e (trimArgs s)))
         (calls (run env (handleShare baseURL s) w))).
Proof.
  split; [reflexivity |]. split; [reflexivity |].
  intros f env w e bytes Hf _ He Hfetch Hwrite.
  destruct (exec_dispatched_with_engine baseURL s f env w e bytes
              Hf He Hfetch Hwrite) as [Htrim Hshare].
  destruct (run_guarded_head baseURL s f env w Hf) as [Hh1 Hh2].
  repeat split; assumption.
Qed.

Lemma in_flight_flag_not_consulted_witness :
  In (EReq (RExec 0%nat (trimArgs readySession)))
     (calls (run okEnv (handleTrim baseURL_selfhosted readySession)
                 busyWorld)) /\
  In (EReq (RExec 0%nat (trimArgs readySession)))
     (calls (run okEnv (handleShare baseURL_selfhosted readySession)
                 busyWorld)).
Proof.
  destruct (in_flight_flag_not_consulted baseURL_selfhosted readySession true)
    as (_ & _ & H).
  destruct (H clip okEnv busyWorld 0%nat [Byte.x01]
              eq_refl eq_refl eq_refl eq_refl eq_refl)
    as (_ & Htrim & _ & Hshare).
  split; [exact Htrim | exact Hshare].
Defined.

(** C2 refuted as stated: with the first [exec] in flight and
    [isProcessing] true, pressing Trim (or Share) again starts a second
    run, and once its input is written two [exec] invocations are in
    flight at the same time. *)
Lemma second_trim_runs_concurrently :
  (fun sys => (loading (session (world sys)), execs_in_flight sys))
    <$> steps baseURL_selfhosted untilFirstExec initialSystem
  = Some (true, 1%nat) /\
  execs_in_flight
    <$> steps baseURL_selfhosted (untilFirstExec ++ secondRun ClickTrim)
              initialSystem
  = Some 2%nat /\
  execs_in_flight
    <$> steps baseURL_selfhosted (untilFirstExec ++ secondRun ClickShare)
              initialSystem
  = Some 2%nat.
Proof.
  split; [vm_compute; reflexivity |].
  split; vm_compute; reflexivity.
Qed.

(** ** Where the engine runtime is loaded from *)

(** C7, as the code has it: src/App.tsx holds two revisions of the
    component, and the loader of each makes a single attempt from its own
    configured base location.  With no cached engine, the revision of
    lines 1-454 (line 49, "Use the official CDN") fetches the runtime
    from cdn.jsdelivr.net and from nowhere on the page's origin; the
    revision of lines 455-990 (line 503, "Self-hosted FFmpeg core files")
    fetches it from the same-origin path /ffmpeg only. *)
Theorem loader_base_locations (env : Env) (w : World) :
  head (fetched (calls (run env (loadFFmpeg baseURL_cdn)
                            (setFfmpegRef None w))))
  = Some "https://cdn.jsdelivr.net/npm/@ffmpeg/core@0.12.6/dist/esm/ffmpeg-core.js"
  /\
  forallb names_remote_host
          (fetched (calls (run env (loadFFmpeg baseURL_cdn)
                               (setFfmpegRef None w)))) = true /\
  existsb same_origin_path
          (fetched (calls (run env (loadFFmpeg baseURL_cdn)
                               (setFfmpegRef None w)))) = false /\
  head (fetched (calls (run env (loadFFmpeg baseURL_selfhosted)
                            (setFfmpegRef None w))))
  = Some "/ffmpeg/ffmpeg-core.js" /\
  forallb same_origin_path
          (fetched (calls (run env (loadFFmpeg baseURL_selfhosted)
                               (setFfmpegRef None w)))) = true /\
  (length (List.filter is_load
                       (calls (run env (loadFFmpeg baseURL_cdn)
                                   (setFfmpegRef None w)))) <= 1)%nat /\
  (length (List.filter is_load
                       (calls (run env (loadFFmpeg baseURL_selfhosted)
                                   (setFfmpegRef None w)))) <= 1)%nat.
Proof.
  expose_calls. unfold baseURL_cdn, baseURL_selfhosted.
  repeat split; walk idtac; try reflexivity; lia.
Qed.

(** C7 refuted as stated on the first revision: with everything
    answering, its loader fetches both runtime files from
    cdn.jsdelivr.net, a third-party host, and nothing from the page's own
    origin. *)
Lemma first_revision_loads_from_cdn :
  fetched (calls (run okEnv (loadFFmpeg baseURL_cdn) initialWorld))
  = ["https://cdn.jsdelivr.net/npm/@ffmpeg/core@0.12.6/dist/esm/ffmpeg-core.js";
     "https://cdn.jsdelivr.net/npm/@ffmpeg/core@0.12.6/dist/esm/ffmpeg-core.wasm"]
  /\
  forallb names_remote_host
          (fetched (calls (run okEnv (loadFFmpeg baseURL_cdn) initialWorld)))
  = true /\
  existsb same_origin_path
          (fetched (calls (run okEnv (loadFFmpeg baseURL_cdn) initialWorld)))
  = false.
Proof.
  repeat split; vm_compute; reflexivity.
Qed.

(** A cached engine is returned without any fetch. *)
Lemma loader_cached (baseURL : string) (env : Env) (w : World) (e : Engine) :
  ffmpegRef w = Some e ->
  run env (loadFFmpeg baseURL) w = (w, [EAct AReadFfmpegRef], Ok e).
Proof.
  intros He. expose_calls. cbn. rewrite He. reflexivity.
Qed.

(** * Further properties *)

(** ** Bounds and derived times *)

Lemma div100 (a : Q) : a / 100 == a * (1 # 100).
Proof. reflexivity. Qed.

(** X1: with bounds in range and a finite, non-negative duration, the
    times handed to the engine are ordered inside the video:
    [0 <= startTimeInSeconds <= endTimeInSeconds <= videoDuration], and
    the clip length is between 0 and [videoDuration]. *)
Theorem window_inside_video (s : Session) :
  0 <= startTime s -> startTime s < endTime s -> endTime s <= 100 ->
  0 <= videoDuration s -> videoDuration s <= Number_MAX_VALUE ->
  0 <= startTimeInSeconds s /\
  startTimeInSeconds s <= endTimeInSeconds s /\
  endTimeInSeconds s <= videoDuration s /\
  0 <= duration s /\
  duration s <= videoDuration s.
Proof.
  intros H0 Hlt H100 Hd _.
  unfold duration, endTimeInSeconds, startTimeInSeconds.
  rewrite !div100.
  repeat split; nra.
Qed.

Lemma window_inside_video_witness :
  0 <= startTimeInSeconds readySession /\
  endTimeInSeconds readySession <= videoDuration readySession /\
  0 <= duration readySession.
Proof.
  assert (0 <= startTime readySession) as H0 by (simpl; lra).
  assert (startTime readySession < endTime readySession) as H1
      by (simpl; lra).
  assert (endTime readySession <= 100) as H2 by (simpl; lra).
  assert (0 <= videoDuration readySession) as H3 by (simpl; lra).
  assert (videoDuration readySession <= Number_MAX_VALUE) as H4
      by (vm_compute; discriminate).
  destruct (window_inside_video readySession H0 H1 H2 H3 H4)
    as (Ha & _ & Hb & Hc & _).
  split; [exact Ha |]. split; [exact Hb | exact Hc].
Defined.

(** X2: a setter call repeated with the same value changes nothing more:
    the world after two calls is the world after one.  (The first copy of
    the markup wires both [onInput] and [onChange] to the setter.) *)
Theorem setter_twice (c : SliderCall) (w : World) :
  slider c (slider c w) = slider c w.
Proof.
  destruct w as [[f u dur st en ld tc ac] vr fr fi lu nu ne].
  destruct c as [v | v]; unfold slider, handleStartTimeChange,
    handleEndTimeChange; simpl.
  - destruct (Qle_bool en v) eqn:E; simpl; rewrite E; simpl;
      destruct vr; reflexivity.
  - destruct (Qle_bool v st) eqn:E; simpl; rewrite E; simpl;
      destruct vr; reflexivity.
Qed.

Lemma slider_near_range (c : SliderCall) (w : World) :
  on_track c -> near_range w -> near_range (slider c w).
Proof.
  unfold on_track, near_range.
  intros [Hv0 Hv100] (Ha & Hb & Hc & Hd & He).
  destruct c as [v | v]; unfold slider; simpl in Hv0, Hv100.
  - rewrite start_after_start, end_after_start.
    destruct (Qle_bool (endTime (session w)) v) eqn:E.
    + repeat split; lra.
    + apply Qle_bool_false in E. repeat split; lra.
  - rewrite start_after_end, end_after_end.
    destruct (Qle_bool v (startTime (session w))) eqn:E.
    + repeat split; lra.
    + apply Qle_bool_false in E. repeat split; lra.
Qed.

(** X3: while every value given to the setters lies in [0,100], the
    bounds never drift further than one unit outside the track: from
    [0 <= startFraction < endFraction <= 100], after any sequence of calls
    [-1 <= startFraction <= 100], [0 <= endFraction <= 101] and
    [startFraction < endFraction]. *)
Theorem sliders_drift_at_most_one (cs : list SliderCall) (w : World) :
  Forall on_track cs -> range_ok w -> near_range (sliders cs w).
Proof.
  intros Hcs (H0 & Hlt & H100).
  assert (near_range w) as Hw by (unfold near_range; repeat split; lra).
  clear H0 Hlt H100. revert w Hw.
  induction Hcs as [| c cs Hc Hcs IH]; intros w Hw; simpl.
  - exact Hw.
  - apply IH. apply slider_near_range; assumption.
Qed.

Lemma sliders_drift_at_most_one_witness :
  near_range (sliders [SetEndFraction 0.5; SetStartFraction 0.5;
                       SetEndFraction 0]
                      initialWorld).
Proof.
  apply (sliders_drift_at_most_one
           [SetEndFraction 0.5; SetStartFraction 0.5; SetEndFraction 0]
           initialWorld).
  - repeat constructor; simpl; lra.
  - exact range_ok_initial.
Defined.

(** X4: the seek that follows a setter call uses the value given, not the
    value stored.  With bounds in range, a mounted video whose duration
    is finite and at least one second, and a value on the track that is
    coerced ([endFraction <= v <= 100]), the preview is moved to
    [(v / 100) * videoDuration], strictly after the stored start time, and
    its playing state is unchanged. *)
Theorem coerced_start_seeks_past_bound (v : Q) (w : World) (vid : Video) :
  videoRef w = Some vid ->
  range_ok w ->
  endTime (session w) <= v -> v <= 100 ->
  1 <= videoDuration (session w) ->
  videoDuration (session w) <= Number_MAX_VALUE ->
  exists vid',
    videoRef (handleStartTimeChange v w) = Some vid' /\
    video_currentTime vid' = (v / 100) * videoDuration (session w) /\
    video_playing vid' = video_playing vid /\
    startTimeInSeconds (session (handleStartTimeChange v w))
    < video_currentTime vid'.
Proof.
  intros Hvid _ Hge _ Hdur _.
  exists (seek ((v / 100) * videoDuration (session w)) vid).
  assert (Qle_bool (endTime (session w)) v = true) as E
      by (apply Qle_bool_iff; exact Hge).
  unfold handleStartTimeChange. rewrite E.
  destruct w as [[f u dur st en ld tc ac] vr fr fi lu nu ne].
  simpl in *. subst vr. simpl.
  split; [reflexivity |]. split; [reflexivity |]. split; [reflexivity |].
  unfold startTimeInSeconds. simpl. rewrite !div100. nra.
Qed.

Lemma coerced_start_seeks_past_bound_witness :
  exists vid',
    videoRef (handleStartTimeChange 90 readyWorld) = Some vid' /\
    startTimeInSeconds (session (handleStartTimeChange 90 readyWorld))
    < video_currentTime vid'.
Proof.
  assert (range_ok readyWorld) as Hr
      by (unfold range_ok; simpl; repeat split; lra).
  destruct (coerced_start_seeks_past_bound 90 readyWorld
              (mkVideo 120 0 false) eq_refl Hr)
    as (vid' & H1 & _ & _ & H2).
  - simpl. lra.
  - lra.
  - simpl. lra.
  - vm_compute. discriminate.
  - exists vid'. split; assumption.
Defined.

(** ** Selecting and clearing files *)

(** X5: a selection that is empty, or whose first file is not declared as
    video, changes nothing and shows exactly one alert. *)
Theorem non_video_rejected (files : option (list File)) (w : World) :
  (forall file, files ≫= head = Some file ->
                String.prefix "video/" (file_type file) = false) ->
  handleFileChange files w
  = (w, [EAct (AAlert "Please select a valid video file")]).
Proof.
  intros Hno. unfold handleFileChange.
  destruct (files ≫= head) as [file |]; [| reflexivity].
  rewrite (Hno file eq_refl). reflexivity.
Qed.

Lemma non_video_rejected_witness :
  handleFileChange (Some [mkFile "shot.png" "image/png" []]) readyWorld
  = (readyWorld, [EAct (AAlert "Please select a valid video file")]).
Proof.
  apply (non_video_rejected (Some [mkFile "shot.png" "image/png" []])
                            readyWorld).
  intros file [= <-]. reflexivity.
Defined.

Lemma tidy_ready : tidy readyWorld.
Proof.
  unfold tidy; simpl. repeat split; try (intros; eexists; reflexivity).
  - intros u [= <-]. apply elem_of_singleton. reflexivity.
  - intros u Hu. apply elem_of_singleton in Hu. subst u. lia.
Qed.

(** X6: in a tidy state, selecting a video file stores it, issues a fresh
    preview address that is live, revokes the address held before, shows
    the actions and alerts nothing.  Bounds, duration, [isProcessing] and
    the visibility of the trim controls are left as they were, and every
    other live address stays live. *)
Theorem video_selected (files : option (list File)) (file : File)
    (w : World) :
  files ≫= head = Some file ->
  String.prefix "video/" (file_type file) = true ->
  tidy w ->
  snd (handleFileChange files w) = [] /\
  session (fst (handleFileChange files w))
  = setShowActions true
      (setCurrentUrl (Some (nextUrl w))
                     (setCurrentFile (Some file) (session w))) /\
  nextUrl w ∈ liveUrls (fst (handleFileChange files w)) /\
  (forall u, currentUrl (session w) = Some u ->
             u ∉ liveUrls (fst (handleFileChange files w))) /\
  (forall u, u ∈ liveUrls w -> currentUrl (session w) <> Some u ->
             u ∈ liveUrls (fst (handleFileChange files w))).
Proof.
  intros Hfile Hvideo (_ & _ & _ & Hlive & Hfresh).
  unfold handleFileChange. rewrite Hfile, Hvideo.
  destruct w as [[f u dur st en ld tc ac] vr fr fi lu nu ne].
  simpl in *. destruct u as [u |]; simpl.
  - split; [reflexivity |]. split; [reflexivity |]. split; [| split].
    + apply elem_of_union. left. apply elem_of_singleton. reflexivity.
    + intros u' Hu'. assert (u' = u) as -> by congruence.
      intros Hin. rewrite elem_of_union in Hin. destruct Hin as [Hin | Hin].
      * apply elem_of_singleton in Hin. subst u.
        specialize (Hfresh nu (Hlive nu eq_refl)). lia.
      * apply elem_of_difference in Hin as [_ Hin]. apply Hin.
        apply elem_of_singleton. reflexivity.
    + intros u' Hin Hne. assert (u' <> u) as Hu by congruence.
      apply elem_of_union. right. apply elem_of_difference.
      split; [exact Hin |]. intros Hs. apply elem_of_singleton in Hs.
      exact (Hu Hs).
  - split; [reflexivity |]. split; [reflexivity |]. split; [| split].
    + apply elem_of_union. left. apply elem_of_singleton. reflexivity.
    + intros u' Hu'. discriminate Hu'.
    + intros u' Hin _. apply elem_of_union. right. exact Hin.
Qed.

Lemma video_selected_witness :
  session (fst (handleFileChange (Some [clip2]) readyWorld))
  = setShowActions true
      (setCurrentUrl (Some 1%nat)
                     (setCurrentFile (Some clip2) readySession)) /\
  (0%nat ∉ liveUrls (fst (handleFileChange (Some [clip2]) readyWorld))).
Proof.
  destruct (video_selected (Some [clip2]) clip2 readyWorld
              eq_refl eq_refl tidy_ready) as (_ & Hs & _ & Hold & _).
  split; [exact Hs |]. apply Hold. reflexivity.
Defined.

(** X7: selecting a video and clearing again leaks no preview address: the
    registry of live object URLs is the one from before the selection,
    less the address that was held then. *)
Theorem select_then_clear_leaks_nothing (files : option (list File))
    (file : File) (w : World) :
  files ≫= head = Some file ->
  String.prefix "video/" (file_type file) = true ->
  nextUrl w ∉ liveUrls w ->
  liveUrls (handleClear (fst (handleFileChange files w)))
  = match currentUrl (session w) with
    | Some u => liveUrls w ∖ {[ u ]}
    | None => liveUrls w
    end.
Proof.
  intros Hfile Hvideo Hfresh.
  unfold handleFileChange. rewrite Hfile, Hvideo.
  destruct w as [[f u dur st en ld tc ac] vr fr fi lu nu ne].
  simpl in *. destruct u as [u |]; simpl; apply set_eq; intros x;
    rewrite ?elem_of_difference, ?elem_of_union, ?elem_of_difference,
      ?elem_of_singleton;
    split.
  - intros [[-> | [Hx Hu]] Hn]; [congruence | split; assumption].
  - intros [Hx Hu]. split; [right; split; assumption |].
    intros ->. exact (Hfresh Hx).
  - intros [[-> | Hx] Hn]; [congruence | assumption].
  - intros Hx. split; [right; assumption |].
    intros ->. exact (Hfresh Hx).
Qed.

Lemma select_then_clear_leaks_nothing_witness :
  liveUrls (handleClear (fst (handleFileChange (Some [clip2]) readyWorld)))
  = liveUrls readyWorld ∖ {[ 0%nat ]}.
Proof.
  apply (select_then_clear_leaks_nothing (Some [clip2]) clip2 readyWorld
           eq_refl eq_refl).
  simpl. intros Hin. apply elem_of_singleton in Hin. discriminate Hin.
Defined.

(** ** What a running handler leaves alone *)

Lemma session_eta (s : Session) : s = setLoading (loading s) s.
Proof. destruct s; reflexivity. Qed.

Lemma async_frame_refl (w : World) : async_frame w w.
Proof.
  unfold async_frame. split; [apply session_eta |].
  repeat split; try reflexivity; try lia.
  intros u Hu. left. exact Hu.
Qed.

Lemma async_frame_trans (w1 w2 w3 : World) :
  async_frame w1 w2 -> async_frame w2 w3 -> async_frame w1 w3.
Proof.
  intros (Hs1 & Hv1 & Hf1 & Hl1 & Hn1 & Hu1) (Hs2 & Hv2 & Hf2 & Hl2 & Hn2 & Hu2).
  unfold async_frame. split; [| split; [| split; [| split; [| split]]]].
  - rewrite Hs2. rewrite Hs1. reflexivity.
  - congruence.
  - congruence.
  - intros u Hu. apply Hl2. apply Hl1. exact Hu.
  - lia.
  - intros u Hu. destruct (Hu2 u Hu) as [Hin | Hrange].
    + destruct (Hu1 u Hin) as [Hin1 | Hrange1]; [left; exact Hin1 |].
      right. lia.
    + right. lia.
Qed.

Lemma perform_frame (env : Env) (a : action) (w : World) :
  async_frame w (snd (perform env a w)).
Proof.
  destruct a; simpl; try apply async_frame_refl.
  - unfold async_frame; simpl. split; [reflexivity |].
    repeat split; try reflexivity; try lia. intros u Hu. left. exact Hu.
  - unfold async_frame; simpl. split; [apply session_eta |].
    repeat split; try reflexivity; try lia. intros u Hu. left. exact Hu.
  - unfold async_frame; simpl. split; [apply session_eta |].
    repeat split; try reflexivity; try lia. intros u Hu. left. exact Hu.
  - unfold async_frame; simpl. split; [apply session_eta |].
    split; [reflexivity |]. split; [reflexivity |].
    split; [| split; [lia |]].
    + intros u Hu. apply elem_of_union. right. exact Hu.
    + intros u Hu. apply elem_of_union in Hu.
      destruct Hu as [Hu | Hu]; [| left; exact Hu].
      apply elem_of_singleton in Hu. right. lia.
Qed.

Lemma run_frame {A : Type} (env : Env) (p : prog A) :
  forall w, async_frame w (final_world (run env p w)).
Proof.
  induction p as [a | e | a k IH | r k IH]; intros w; simpl.
  - apply async_frame_refl.
  - apply async_frame_refl.
  - pose proof (perform_frame env a w) as Hp.
    destruct (perform env a w) as [x w1]. specialize (IH x w1).
    destruct (run env (k x) w1) as [[w2 t] o].
    eapply async_frame_trans; eassumption.
  - specialize (IH (respond env r) w).
    destruct (run env (k (respond env r)) w) as [[w2 t] o]. exact IH.
Qed.

Lemma advance_frame (env : Env) (p : prog unit) :
  forall w, async_frame w (fst (fst (advance env p w))).
Proof.
  induction p as [a | e | a k IH | r k IH]; intros w; simpl.
  - apply async_frame_refl.
  - apply async_frame_refl.
  - pose proof (perform_frame env a w) as Hp.
    destruct (perform env a w) as [x w1]. specialize (IH x w1).
    destruct (advance env (k x) w1) as [[w2 t] o].
    eapply async_frame_trans; eassumption.
  - destruct (is_await r); [apply async_frame_refl |].
    specialize (IH (respond env r) w).
    destruct (advance env (k (respond env r)) w) as [[w2 t] o]. exact IH.
Qed.

(** X8: a run of [handleTrim] or [handleShare] with a file present, however
    it ends, leaves the session as it found it with [isProcessing] false:
    file, preview address, duration, both bounds and both visibility flags
    are untouched, and so are the mounted video and the file input.  No
    object URL that was live is revoked by the run. *)
Theorem run_touches_only_loading (baseURL : string) (s : Session) (f : File)
    (env : Env) (w : World) (h : prog unit) :
  currentFile s = Some f ->
  h = handleTrim baseURL s \/ h = handleShare baseURL s ->
  session (final_world (run env h w)) = setLoading false (session w) /\
  videoRef (final_world (run env h w)) = videoRef w /\
  fileInputValue (final_world (run env h w)) = fileInputValue w /\
  liveUrls w ⊆ liveUrls (final_world (run env h w)).
Proof.
  intros Hf Hh.
  destruct (run_frame env h w) as (Hs & Hv & Hi & Hl & _ & _).
  assert (loading (session (final_world (run env h w))) = false) as Hload.
  { assert (exists body text, h = guarded body text) as (body & text & ->).
    { destruct Hh as [-> | ->].
      - eapply handleTrim_guarded; eassumption.
      - eapply handleShare_guarded; eassumption. }
    apply run_guarded. }
  rewrite Hload in Hs. repeat split; assumption.
Qed.

Lemma run_touches_only_loading_witness :
  session (final_world (run emptyOutputEnv
                            (handleTrim baseURL_selfhosted readySession)
                            busyWorld))
  = setLoading false (session busyWorld).
Proof.
  apply (run_touches_only_loading baseURL_selfhosted readySession clip
           emptyOutputEnv busyWorld _ eq_refl (or_introl eq_refl)).
Defined.

(** ** Invariants of the event loop *)

Lemma tidy_frame (w w' : World) : async_frame w w' -> tidy w -> tidy w'.
Proof.
  intros (Hs & Hv & Hi & Hl & Hn & Hu) (H1 & H2 & H3 & H4 & H5).
  unfold tidy. rewrite Hs. simpl.
  split; [exact H1 |]. split; [exact H2 |]. split; [exact H3 |]. split.
  - intros u Hcur. apply Hl. apply H4. exact Hcur.
  - intros u Hin. destruct (Hu u Hin) as [Hold | Hnew].
    + specialize (H5 u Hold). lia.
    + lia.
Qed.

Lemma coherent_render (w : World) : tidy w -> coherent (render w).
Proof.
  intros Ht. unfold coherent, render.
  destruct (currentUrl (session w)) as [u |] eqn:Hu;
    destruct (videoRef w) as [v |] eqn:Hv; simpl.
  - split; [exact Ht |]. rewrite Hu, Hv. split; intros _; eexists; reflexivity.
  - split; [exact Ht |]. rewrite Hu. split; intros _; eexists; reflexivity.
  - split; [exact Ht |]. rewrite Hu.
    split; intros [x Hx]; discriminate Hx.
  - split; [exact Ht |]. rewrite Hu.
    split; intros [x Hx]; discriminate Hx.
Qed.

Lemma tidy_file_change (files : option (list File)) (w : World) :
  tidy w -> tidy (fst (handleFileChange files w)).
Proof.
  intros Ht. unfold handleFileChange.
  destruct (files ≫= head) as [file |]; [| exact Ht].
  destruct (String.prefix "video/" (file_type file)); [| exact Ht].
  destruct Ht as (H1 & H2 & H3 & H4 & H5).
  destruct w as [[f u dur st en ld tc ac] vr fr fi lu nu ne].
  simpl in *.
  assert (forall x, x ∈ {[nu]} ∪ lu ∖ match u with
                                        | Some u0 => {[u0]}
                                        | None => ∅
                                        end -> (x < S nu)%nat) as Hfresh.
  { intros x Hx. apply elem_of_union in Hx. destruct Hx as [Hx | Hx].
    - apply elem_of_singleton in Hx. lia.
    - apply elem_of_difference in Hx as [Hx _]. specialize (H5 x Hx). lia. }
  destruct u as [u |]; unfold tidy; simpl.
  - split; [split; intros _; eexists; reflexivity |].
    split; [split; intros _; [eexists |]; reflexivity |].
    split; [intros _; eexists; reflexivity |]. split.
    + intros x [= <-]. apply elem_of_union. left.
      apply elem_of_singleton. reflexivity.
    + exact Hfresh.
  - split; [split; intros _; eexists; reflexivity |].
    split; [split; intros _; [eexists |]; reflexivity |].
    split; [intros _; eexists; reflexivity |]. split.
    + intros x [= <-]. apply elem_of_union. left.
      apply elem_of_singleton. reflexivity.
    + intros x Hx. apply Hfresh. apply elem_of_union in Hx.
      apply elem_of_union. destruct Hx as [Hx | Hx]; [left; exact Hx |].
      right. apply elem_of_difference. split; [exact Hx |].
      apply not_elem_of_empty.
Qed.

Lemma tidy_clear (w : World) : tidy w -> tidy (handleClear w).
Proof.
  intros (H1 & H2 & H3 & H4 & H5). unfold handleClear, tidy.
  destruct (currentUrl (session w)) as [u |]; simpl.
  - split; [split; intros [x Hx]; discriminate Hx |].
    split; [split; [discriminate | intros [x Hx]; discriminate Hx] |].
    split; [discriminate |]. split; [discriminate |].
    intros x Hx. apply elem_of_difference in Hx as [Hx _]. exact (H5 x Hx).
  - split; [split; intros [x Hx]; discriminate Hx |].
    split; [split; [discriminate | intros [x Hx]; discriminate Hx] |].
    split; [discriminate |]. split; [discriminate |]. exact H5.
Qed.

Lemma tidy_slider (c : SliderCall) (w : World) : tidy w -> tidy (slider c w).
Proof.
  intros Ht. destruct c as [v | v]; unfold slider, handleStartTimeChange,
    handleEndTimeChange.
  - destruct (Qle_bool (endTime (session w)) v); exact Ht.
  - destruct (Qle_bool v (startTime (session w))); exact Ht.
Qed.

Lemma step_coherent (baseURL : string) (env : Env) (i : Input)
    (sys sys' : System) :
  step baseURL env i sys = Some sys' ->
  coherent (world sys) -> coherent (world sys').
Proof.
  intros Hstep [Ht Hvid]. destruct i; simpl in Hstep.
  - pose proof (tidy_file_change files (world sys) Ht) as Ht'.
    destruct (handleFileChange files (world sys)) as [w1 t].
    injection Hstep as <-. simpl. apply coherent_render. exact Ht'.
  - destruct (videoRef (world sys)) as [v |] eqn:Hv; [| discriminate Hstep].
    injection Hstep as <-. simpl. apply coherent_render.
    destruct Ht as (H1 & H2 & H3 & H4 & H5).
    unfold handleLoadedMetadata, tidy; simpl.
    split; [exact H1 |]. split; [exact H2 |].
    split; [| split; assumption].
    intros _. apply H1. apply Hvid. eexists; reflexivity.
  - unfold guard in Hstep.
    destruct (showTrimControls _); [| discriminate Hstep].
    injection Hstep as <-. simpl. apply coherent_render.
    apply tidy_slider. exact Ht.
  - unfold guard in Hstep.
    destruct (showTrimControls _); [| discriminate Hstep].
    injection Hstep as <-. simpl. apply coherent_render. exact Ht.
  - unfold guard in Hstep.
    destruct (showTrimControls _); [| discriminate Hstep].
    injection Hstep as <-. unfold spawn.
    pose proof (advance_frame env (handleTrim baseURL (session (world sys)))
                              (world sys)) as Hfr.
    destruct (advance env _ (world sys)) as [[w1 t] o]. simpl in *.
    apply coherent_render. eapply tidy_frame; eassumption.
  - unfold guard in Hstep.
    destruct (showActions _); [| discriminate Hstep].
    injection Hstep as <-. unfold spawn.
    pose proof (advance_frame env (handleDownload (session (world sys)))
                              (world sys)) as Hfr.
    destruct (advance env _ (world sys)) as [[w1 t] o]. simpl in *.
    apply coherent_render. eapply tidy_frame; eassumption.
  - unfold guard in Hstep.
    destruct (showActions _); [| discriminate Hstep].
    injection Hstep as <-. unfold spawn.
    pose proof (advance_frame env (handleShare baseURL (session (world sys)))
                              (world sys)) as Hfr.
    destruct (advance env _ (world sys)) as [[w1 t] o]. simpl in *.
    apply coherent_render. eapply tidy_frame; eassumption.
  - unfold guard in Hstep.
    destruct (showActions _); [| discriminate Hstep].
    injection Hstep as <-. simpl. apply coherent_render.
    apply tidy_clear. exact Ht.
  - destruct (pending sys !! i) as [[r k] |]; [| discriminate Hstep].
    pose proof (advance_frame env (k (respond env r)) (world sys)) as Hfr.
    destruct (advance env (k (respond env r)) (world sys)) as [[w1 t] o].
    injection Hstep as <-. simpl in *.
    apply coherent_render. eapply tidy_frame; eassumption.
Qed.

Lemma coherent_initial : coherent initialWorld.
Proof.
  unfold coherent, tidy; simpl.
  repeat split; try discriminate;
    try (intros [x Hx]; discriminate Hx);
    try (intros u Hu; apply not_elem_of_empty in Hu; destruct Hu).
Qed.

Lemma steps_coherent (baseURL : string) (script : list (Env * Input)) :
  forall sys0 sys,
    coherent (world sys0) ->
    steps baseURL script sys0 = Some sys ->
    coherent (world sys).
Proof.
  induction script as [| [env i] rest IH]; intros sys0 sys H0 Hs.
  - simpl in Hs. injection Hs as <-. exact H0.
  - simpl in Hs.
    destruct (step baseURL env i sys0) as [sys1 |] eqn:H1;
      [| discriminate Hs].
    eapply IH; [| exact Hs]. eapply step_coherent; eassumption.
Qed.

(** X9: in every state the application can reach, a file is present
    exactly when a preview address is, exactly when the actions are shown
    and exactly when the video element is mounted; the trim controls are
    shown only with a file present; and the preview address is a live
    object URL. *)
Theorem reachable_coherent (baseURL : string) (sys : System) :
  reachable baseURL sys -> coherent (world sys).
Proof.
  intros [script Hscript].
  eapply steps_coherent; [| exact Hscript]. exact coherent_initial.
Qed.

Lemma loadedSystem_reachable (baseURL : string) :
  reachable baseURL loadedSystem.
Proof.
  exists [(okEnv, SelectFile (Some [clip])); (okEnv, MetadataLoaded 120)].
  reflexivity.
Qed.

Lemma reachable_coherent_witness : coherent (world loadedSystem).
Proof.
  apply (reachable_coherent baseURL_selfhosted loadedSystem).
  exists [(okEnv, SelectFile (Some [clip])); (okEnv, MetadataLoaded 120)].
  reflexivity.
Defined.

Lemma advance_suspends (baseURL : string) (s : Session) (f : File)
    (env : Env) (w : World) :
  currentFile s = Some f ->
  (exists w' t task,
      advance env (handleTrim baseURL s) w = (w', t, Some task) /\
      loading (session w') = true) /\
  (exists w' t task,
      advance env (handleShare baseURL s) w = (w', t, Some task) /\
      loading (session w') = true).
Proof.
  intros Hf. split; expose_calls; rewrite Hf; cbn;
    destruct (ffmpegRef w); cbn;
    do 3 eexists; (split; [reflexivity | reflexivity]).
Qed.

(** X10: in every reachable state, a press on Trim (rendered with the
    trim controls) or on Share (rendered with the actions) starts a run:
    the step is enabled, [isProcessing] becomes true and one more request
    is pending.  The handlers' early return for a missing file is never
    taken from the rendered buttons. *)
Theorem press_starts_run (baseURL : string) (env : Env) (sys : System) :
  reachable baseURL sys ->
  (showTrimControls (session (world sys)) = true ->
   exists sys' task,
     step baseURL env ClickTrim sys = Some sys' /\
     pending sys' = pending sys ++ [task] /\
     loading (session (world sys')) = true) /\
  (showActions (session (world sys)) = true ->
   exists sys' task,
     step baseURL env ClickShare sys = Some sys' /\
     pending sys' = pending sys ++ [task] /\
     loading (session (world sys')) = true).
Proof.
  intros [script Hscript].
  destruct (steps_coherent baseURL script initialSystem sys
              coherent_initial Hscript) as [(H1 & H2 & H3 & _ & _) _].
  split; intros Hshown.
  - destruct (H3 Hshown) as [f Hf].
    destruct (advance_suspends baseURL (session (world sys)) f env
                (world sys) Hf) as [(w' & t & task & Hadv & Hload) _].
    simpl. rewrite Hshown. simpl. unfold spawn. rewrite Hadv.
    eexists. exists task. split; [reflexivity |]. simpl.
    split; [reflexivity |]. rewrite session_render. exact Hload.
  - destruct (proj1 H2 Hshown) as [f Hf].
    destruct (advance_suspends baseURL (session (world sys)) f env
                (world sys) Hf) as [_ (w' & t & task & Hadv & Hload)].
    simpl. rewrite Hshown. simpl. unfold spawn. rewrite Hadv.
    eexists. exists task. split; [reflexivity |]. simpl.
    split; [reflexivity |]. rewrite session_render. exact Hload.
Qed.

Lemma press_starts_run_witness :
  exists sys' task,
    step baseURL_selfhosted okEnv ClickTrim loadedSystem = Some sys' /\
    pending sys' = pending loadedSystem ++ [task] /\
    loading (session (world sys')) = true.
Proof.
  apply (press_starts_run baseURL_selfhosted okEnv loadedSystem).
  - exists [(okEnv, SelectFile (Some [clip])); (okEnv, MetadataLoaded 120)].
    reflexivity.
  - reflexivity.
Defined.

Lemma download_world (env : Env) (s : Session) (w : World) :
  fst (fst (advance env (handleDownload s) w)) = w.
Proof.
  unfold handleDownload.
  destruct (currentFile s) as [f |]; [| reflexivity].
  destruct (currentUrl s) as [u |]; [| reflexivity].
  expose_calls. cbn.
  destruct (respond env (RClick _)) as [[] | e]; reflexivity.
Qed.

Lemma spawn_busy (env : Env) (p : prog unit) (sys : System) :
  resets_last p \/ p = Ret tt ->
  busy_has_task sys -> busy_has_task (spawn env p sys).
Proof.
  intros Hp Hbusy. unfold spawn, busy_has_task. destruct Hp as [Hp | ->].
  - pose proof (advance_resets env p Hp (world sys)) as H.
    destruct (advance env p (world sys)) as [[w t] [task |]];
      cbn [world pending]; rewrite session_render.
    + intros _ Hnil. apply app_eq_nil in Hnil as [_ Hnil].
      discriminate Hnil.
    + destruct H as [Hl _]. rewrite Hl. discriminate.
  - cbn [advance world pending]. rewrite session_render. exact Hbusy.
Qed.

Lemma busy_sync (w : World) (t : list event) (sys : System) :
  loading (session w) = loading (session (world sys)) ->
  busy_has_task sys -> busy_has_task (sync w t sys).
Proof.
  intros Hl Hbusy. unfold busy_has_task.
  change (world (sync w t sys)) with (render w).
  change (pending (sync w t sys)) with (pending sys).
  rewrite session_render, Hl. exact Hbusy.
Qed.

Lemma loading_file_change (files : option (list File)) (w : World) :
  loading (session (fst (handleFileChange files w))) = loading (session w).
Proof.
  unfold handleFileChange.
  destruct (files ≫= head) as [file |]; [| reflexivity].
  destruct (String.prefix "video/" (file_type file)); [| reflexivity].
  destruct (currentUrl (session w)); reflexivity.
Qed.

Lemma loading_slider (c : SliderCall) (w : World) :
  loading (session (slider c w)) = loading (session w).
Proof.
  destruct c as [v | v]; unfold slider, handleStartTimeChange,
    handleEndTimeChange.
  - destruct (Qle_bool (endTime (session w)) v); reflexivity.
  - destruct (Qle_bool v (startTime (session w))); reflexivity.
Qed.

Lemma loading_clear (w : World) :
  loading (session (handleClear w)) = loading (session w).
Proof.
  unfold handleClear. destruct (currentUrl (session w)); reflexivity.
Qed.

Lemma step_busy (baseURL : string) (env : Env) (i : Input)
    (sys sys' : System) :
  step baseURL env i sys = Some sys' ->
  Forall task_resets (pending sys) ->
  busy_has_task sys -> busy_has_task sys'.
Proof.
  intros Hstep Hall Hbusy. destruct i; simpl in Hstep.
  - destruct (handleFileChange files (world sys)) as [w1 t] eqn:Hfc.
    injection Hstep as <-. apply busy_sync; [| exact Hbusy].
    change w1 with (fst (w1, t)). rewrite <- Hfc.
    apply loading_file_change.
  - destruct (videoRef (world sys)) as [v |] eqn:Hv; [| discriminate Hstep].
    injection Hstep as <-. apply busy_sync; [| exact Hbusy].
    unfold handleLoadedMetadata. reflexivity.
  - unfold guard in Hstep.
    destruct (showTrimControls _); [| discriminate Hstep].
    injection Hstep as <-. apply busy_sync; [| exact Hbusy].
    apply loading_slider.
  - unfold guard in Hstep.
    destruct (showTrimControls _); [| discriminate Hstep].
    injection Hstep as <-. apply busy_sync; [| exact Hbusy]. reflexivity.
  - unfold guard in Hstep.
    destruct (showTrimControls _); [| discriminate Hstep].
    injection Hstep as <-. apply spawn_busy; [| exact Hbusy].
    exact (proj1 (handler_resets_or_returns baseURL (session (world sys)))).
  - unfold guard in Hstep.
    destruct (showActions _); [| discriminate Hstep].
    injection Hstep as <-. unfold busy_has_task.
    rewrite download_never_pending. unfold spawn.
    pose proof (download_world env (session (world sys)) (world sys)) as Hw.
    destruct (advance env _ (world sys)) as [[w1 t] o].
    change (fst (fst (w1, t, o))) with w1 in Hw. subst w1.
    change (world (mkSystem (render (world sys)) _ _))
      with (render (world sys)).
    rewrite session_render. exact Hbusy.
  - unfold guard in Hstep.
    destruct (showActions _); [| discriminate Hstep].
    injection Hstep as <-. apply spawn_busy; [| exact Hbusy].
    exact (proj2 (handler_resets_or_returns baseURL (session (world sys)))).
  - unfold guard in Hstep.
    destruct (showActions _); [| discriminate Hstep].
    injection Hstep as <-. apply busy_sync; [| exact Hbusy].
    apply loading_clear.
  - destruct (pending sys !! i) as [[r k] |] eqn:Hi; [| discriminate Hstep].
    assert (task_resets (Susp r k)) as Hk.
    { eapply Forall_lookup_1; eassumption. }
    pose proof (advance_resets env (k (respond env r)) (Hk _) (world sys))
      as Hadv.
    destruct (advance env (k (respond env r)) (world sys))
      as [[w1 t] [task |]]; injection Hstep as <-;
      unfold busy_has_task;
      change (world (mkSystem (render w1) _ _)) with (render w1);
      rewrite session_render.
    + intros _ Hnil. cbn [pending] in Hnil.
      assert (length (<[i:=task]> (pending sys)) = 0%nat) as Hlen
          by (rewrite Hnil; reflexivity).
      rewrite length_insert in Hlen.
      apply lookup_lt_Some in Hi. lia.
    + destruct Hadv as [Hl _]. rewrite Hl. discriminate.
Qed.

(** X11: the processing overlay cannot stay up with nothing running: in
    every reachable state, [isProcessing] true means that at least one
    request of a trim or share is still pending. *)
Theorem busy_means_pending (baseURL : string) (sys : System) :
  reachable baseURL sys ->
  loading (session (world sys)) = true ->
  pending sys <> [].
Proof.
  intros [script Hscript].
  assert (forall sys0,
             Forall task_resets (pending sys0) -> busy_has_task sys0 ->
             steps baseURL script sys0 = Some sys -> busy_has_task sys)
    as Hgen.
  { clear Hscript.
    induction script as [| [env i] rest IH]; intros sys0 Hall H0 Hs.
    - simpl in Hs. injection Hs as <-. exact H0.
    - simpl in Hs.
      destruct (step baseURL env i sys0) as [sys1 |] eqn:H1;
        [| discriminate Hs].
      eapply IH; [| | exact Hs].
      + eapply step_keeps_resets; eassumption.
      + eapply step_busy; eassumption. }
  eapply Hgen; [| | exact Hscript].
  - constructor.
  - unfold busy_has_task. simpl. discriminate.
Qed.

Lemma busy_means_pending_witness : pending trimmingSystem <> [].
Proof.
  apply (busy_means_pending baseURL_selfhosted trimmingSystem).
  - exists [(okEnv, SelectFile (Some [clip])); (okEnv, MetadataLoaded 120);
            (okEnv, ClickTrim)].
    vm_compute. reflexivity.
  - vm_compute. reflexivity.
Defined.

(** ** The engine loader *)

Lemma loader_outcome (baseURL : string) (env : Env) (w : World) :
  match outcome (run env (loadFFmpeg baseURL) w) with
  | Ok e =>
      ffmpegRef (final_world (run env (loadFFmpeg baseURL) w)) = Some e
  | Fail err =>
      ffmpegRef w = None /\
      ffmpegRef (final_world (run env (loadFFmpeg baseURL) w)) = None /\
      exists r,
        In (EReq r) (calls (run env (loadFFmpeg baseURL) w)) /\
        respond env r = Fail err
  end.
Proof.
  expose_calls. cbn.
  destruct (ffmpegRef w) as [e |] eqn:He; cbn; [exact He |].
  walk idtac;
    try reflexivity;
    (split; [reflexivity |]; split; [exact He |];
     eexists; split; [| eassumption]; find_in_list).
Qed.

(** X12: [loadFFmpeg] memoises success only.  When it resolves, the engine
    it returns is the one kept in [ffmpegRef], and a later call returns
    that same engine after reading the ref and nothing else (no fetch, no
    new instance).  When it rejects, no engine was cached before, none is
    cached after, and the error is the one of a request made during the
    run. *)
Theorem loader_memoizes (baseURL baseURL' : string) (env env' : Env)
    (w : World) :
  match outcome (run env (loadFFmpeg baseURL) w) with
  | Ok e =>
      ffmpegRef (final_world (run env (loadFFmpeg baseURL) w)) = Some e /\
      run env' (loadFFmpeg baseURL')
          (final_world (run env (loadFFmpeg baseURL) w))
      = (final_world (run env (loadFFmpeg baseURL) w),
         [EAct AReadFfmpegRef], Ok e)
  | Fail err =>
      ffmpegRef w = None /\
      ffmpegRef (final_world (run env (loadFFmpeg baseURL) w)) = None /\
      exists r,
        In (EReq r) (calls (run env (loadFFmpeg baseURL) w)) /\
        respond env r = Fail err
  end.
Proof.
  pose proof (loader_outcome baseURL env w) as H.
  destruct (outcome (run env (loadFFmpeg baseURL) w)) as [e | err].
  - split; [exact H |]. apply loader_cached. exact H.
  - exact H.
Qed.

(** ** Outcomes of a trim *)



(** ** Outcomes of a share *)



(** X15: when the save that replaces an unsupported share cannot be
    triggered (the click throws), the object URL created for it stays
    live: the error is alerted and no timer is set to revoke it.  This is
    so on both routes into the fallback, [navigator.share] missing and
    [navigator.canShare] answering false. *)
Theorem failed_fallback_keeps_url (baseURL : string) (s : Session)
    (f : File) (env : Env) (w : World) (e : Error) :
  currentFile s = Some f ->
  navigatorShare env = false \/
  (forall files, respond env (RCanShare files) = Ok false) ->
  (forall a, respond env (RClick a) = Fail e) ->
  existsb asks_share_support (calls (run env (handleShare baseURL s) w))
  = true ->
  nextUrl w ∈ liveUrls (final_world (run env (handleShare baseURL s) w)) /\
  existsb is_timer (calls (run env (handleShare baseURL s) w)) = false /\
  In (EAct (AAlert ("Error: " +:+ message e)))
     (calls (run env (handleShare baseURL s) w)).
Proof.
  intros Hf Hno Hclick. expose_calls. rewrite Hf.
  destruct Hno as [Hnav | Hcan].
  - walk ltac:(first [rewrite Hnav | rewrite Hclick]);
      intros Hreached; try discriminate Hreached;
      (split; [apply elem_of_union; left; apply elem_of_singleton;
               reflexivity
              | split; [reflexivity | find_in_list]]).
  - walk ltac:(first [rewrite Hcan | rewrite Hclick]);
      intros Hreached; try discriminate Hreached;
      (split; [apply elem_of_union; left; apply elem_of_singleton;
               reflexivity
              | split; [reflexivity | find_in_list]]).
Qed.

(** ** The engine during a run *)

(** X16: when the engine cannot be loaded, nothing is written to it,
    executed or read, nothing is delivered, an error is alerted and no
    engine is cached, in download and in share mode alike. *)
Theorem bootstrap_failure_stops_run (baseURL : string) (s : Session)
    (f : File) (env : Env) (w : World) (err : Error) (h : prog unit) :
  currentFile s = Some f ->
  ffmpegRef w = None ->
  (forall e coreURL wasmURL,
      respond env (RLoad e coreURL wasmURL) = Fail err) ->
  h = handleTrim baseURL s \/ h = handleShare baseURL s ->
  existsb is_engine_io (calls (run env h w)) = false /\
  existsb is_delivery (calls (run env h w)) = false /\
  existsb is_error_alert (calls (run env h w)) = true /\
  ffmpegRef (final_world (run env h w)) = None.
Proof.
  intros Hf He Hload [-> | ->]; expose_calls; rewrite Hf;
    walk ltac:(first [rewrite He | rewrite Hload]);
    repeat split; reflexivity.
Qed.

(** X17: a run makes at most one [exec], and its argument vector is the
    one computed from the state captured when the button was pressed,
    whatever the live state is by then. *)
Theorem one_exec_with_captured_window (baseURL : string) (s : Session)
    (env : Env) (w : World) (h : prog unit) :
  h = handleTrim baseURL s \/ h = handleShare baseURL s ->
  List.filter is_exec (calls (run env h w)) = [] \/
  exists e,
    List.filter is_exec (calls (run env h w)) = [EReq (RExec e (trimArgs s))].
Proof.
  intros [-> | ->]; expose_calls;
    (destruct (currentFile s) as [f |]; [| left; reflexivity]);
    walk idtac;
    first [ solve [left; reflexivity]
          | solve [right; eexists; reflexivity] ].
Qed.

(** X18: in download mode the output is read back only after [exec]
    returned 0. *)
Theorem trim_reads_after_exit_zero (baseURL : string) (s : Session)
    (env : Env) (w : World) :
  existsb is_read (calls (run env (handleTrim baseURL s) w)) = true ->
  exists e, respond env (RExec e (trimArgs s)) = Ok 0%Z.
Proof.
  expose_calls.
  destruct (currentFile s) as [f |]; [| cbn; discriminate].
  walk idtac; intros Hread; try discriminate Hread;
    match goal with
    | Hx : respond env (RExec ?e _) = Ok ?z,
      Hz : negb (?z =? 0)%Z = false |- _ =>
        apply Bool.negb_false_iff in Hz; apply Z.eqb_eq in Hz; subst z;
        exists e; exact Hx
    end.
Qed.

Lemma failed_fallback_keeps_url_witness :
  (1%nat ∈ liveUrls (final_world
                       (run clickThrowsEnv
                            (handleShare baseURL_selfhosted readySession)
                            readyWorld))) /\
  In (EAct (AAlert "Error: click blocked"))
     (calls (run clickThrowsEnv (handleShare baseURL_selfhosted readySession)
                 readyWorld)) /\
  (1%nat ∈ liveUrls (final_world
                       (run cannotShareClickThrowsEnv
                            (handleShare baseURL_selfhosted readySession)
                            readyWorld))).
Proof.
  destruct (failed_fallback_keeps_url baseURL_selfhosted readySession clip
              clickThrowsEnv readyWorld (mkError "click blocked")
              eq_refl (or_introl eq_refl) (fun a => eq_refl))
    as (Hlive & _ & Halert).
  - vm_compute. reflexivity.
  - destruct (failed_fallback_keeps_url baseURL_selfhosted readySession clip
                cannotShareClickThrowsEnv readyWorld
                (mkError "click blocked")
                eq_refl (or_intror (fun files => eq_refl))
                (fun a => eq_refl))
      as (Hlive2 & _ & _).
    + vm_compute. reflexivity.
    + split; [exact Hlive |]. split; [exact Halert | exact Hlive2].
Defined.

Lemma bootstrap_failure_stops_run_witness :
  existsb is_engine_io
          (calls (run loadFailsEnv
                      (handleShare baseURL_selfhosted readySession)
                      readyWorld)) = false /\
  ffmpegRef (final_world
               (run loadFailsEnv (handleTrim baseURL_selfhosted readySession)
                    readyWorld)) = None.
Proof.
  split.
  - apply (bootstrap_failure_stops_run baseURL_selfhosted readySession clip
             loadFailsEnv readyWorld
             (mkError "failed to import ffmpeg-core.js") _
             eq_refl eq_refl (fun e c k => eq_refl) (or_intror eq_refl)).
  - apply (bootstrap_failure_stops_run baseURL_selfhosted readySession clip
             loadFailsEnv readyWorld
             (mkError "failed to import ffmpeg-core.js") _
             eq_refl eq_refl (fun e c k => eq_refl) (or_introl eq_refl)).
Defined.

Lemma one_exec_with_captured_window_witness :
  List.filter is_exec
              (calls (run okEnv (handleTrim baseURL_selfhosted readySession)
                          initialWorld))
  = [EReq (RExec 0%nat (trimArgs readySession))].
Proof.
  destruct (one_exec_with_captured_window baseURL_selfhosted readySession
              okEnv initialWorld _ (or_introl eq_refl)) as [Hnone | [e He]].
  - vm_compute in Hnone. discriminate Hnone.
  - rewrite He. vm_compute in He. injection He as ->. reflexivity.
Defined.

Lemma trim_reads_after_exit_zero_witness :
  exists e, respond okEnv (RExec e (trimArgs readySession)) = Ok 0%Z.
Proof.
  apply (trim_reads_after_exit_zero baseURL_selfhosted readySession okEnv
                                    readyWorld).
  vm_compute. reflexivity.
Defined.

(** ** Download of the original *)

(** X19: [handleDownload] leaves the world as it is and never reaches the
    engine, alerts or creates an object URL.  Any anchor it clicks points
    at the current preview address and carries the original file name;
    with no file or no preview address it does nothing at all. *)
Theorem download_uses_preview_address (env : Env) (s : Session) (w : World) :
  final_world (run env (handleDownload s) w) = w /\
  existsb (fun e => is_engine_io e || is_load e || is_alert e
                    || creates_url e)
          (calls (run env (handleDownload s) w)) = false /\
  (forall a, In (EReq (RClick a)) (calls (run env (handleDownload s) w)) ->
             currentUrl s = Some (a_href a) /\
             exists f, currentFile s = Some f /\ a_download a = file_name f)
  /\
  (currentFile s = None \/ currentUrl s = None ->
   calls (run env (handleDownload s) w) = []).
Proof.
  unfold handleDownload.
  destruct (currentFile s) as [f |]; [destruct (currentUrl s) as [u |] |].
  - expose_calls. cbn.
    destruct (respond env (RClick _)) as [[] | e]; cbn.
    + split; [reflexivity |]. split; [reflexivity |]. split.
      * intros a [Ha | [Ha | [Ha | []]]]; try discriminate Ha.
        injection Ha as <-. split; [reflexivity |].
        exists f. split; reflexivity.
      * intros [Hn | Hn]; discriminate Hn.
    + split; [reflexivity |]. split; [reflexivity |]. split.
      * intros a [Ha | [Ha | []]]; try discriminate Ha.
        injection Ha as <-. split; [reflexivity |].
        exists f. split; reflexivity.
      * intros [Hn | Hn]; discriminate Hn.
  - cbn. split; [reflexivity |]. split; [reflexivity |].
    split; [intros a [] | reflexivity].
  - cbn. split; [reflexivity |]. split; [reflexivity |].
    split; [intros a [] | reflexivity].
Qed.

Lemma download_uses_preview_address_witness :
  currentUrl readySession = Some 0%nat /\
  calls (run okEnv (handleDownload initialSession) initialWorld) = [].
Proof.
  destruct (download_uses_preview_address okEnv readySession readyWorld)
    as (_ & _ & Hclick & _).
  destruct (download_uses_preview_address okEnv initialSession initialWorld)
    as (_ & _ & _ & Hnone).
  split.
  - apply (Hclick (mkAnchor 0%nat "clip.mp4" "")). vm_compute. tauto.
  - apply Hnone. left. reflexivity.
Defined.

(** ** Time labels *)

Lemma Qfloor_div60 (x : Q) : Qfloor (x / 60) = (Qfloor x / 60)%Z.
Proof.
  destruct x as [n d]. unfold Qdiv, Qmult, Qinv, Qfloor. simpl.
  rewrite Z.mul_1_r. rewrite Pos2Z.inj_mul. symmetry.
  apply Z.div_div; lia.
Qed.

Lemma Qfloor_shift (x : Q) (k : Z) :
  Qfloor (x + inject_Z k) = (Qfloor x + k)%Z.
Proof.
  destruct x as [n d]. unfold Qplus, inject_Z, Qfloor. simpl.
  rewrite Z.mul_1_r, Pos.mul_1_r. apply Z.div_add. lia.
Qed.

Lemma Qtrunc_nonneg (x : Q) : 0 <= x -> Qtrunc x = Qfloor x.
Proof.
  destruct x as [n d]. unfold Qle, Qtrunc, Qfloor. simpl.
  rewrite Z.mul_1_r. intros Hn. apply Z.quot_div_nonneg; lia.
Qed.

Lemma rem60_floor (x : Q) :
  0 <= x -> Qfloor (jsRem x 60) = (Qfloor x mod 60)%Z.
Proof.
  intros Hx. unfold jsRem.
  assert (0 <= x / 60) as Hq.
  { unfold Qdiv. apply Qmult_le_0_compat; [exact Hx |]. discriminate. }
  rewrite (Qtrunc_nonneg _ Hq), Qfloor_div60.
  assert (x - 60 * inject_Z (Qfloor x / 60)
          == x + inject_Z (- (60 * (Qfloor x / 60)))) as Heq.
  { rewrite inject_Z_opp, inject_Z_mult. change (inject_Z 60) with 60.
    ring. }
  rewrite (Qfloor_comp _ _ Heq), Qfloor_shift.
  rewrite Z.mod_eq by lia. lia.
Qed.

Lemma two_digits (z : Z) :
  (0 <= z < 60)%Z ->
  String.length (padStart 2 "0" (string_of_Z z)) = 2%nat.
Proof.
  intros Hz.
  assert (forallb
            (fun n => (String.length
                         (padStart 2 "0" (string_of_Z (Z.of_nat n))) =? 2)%nat)
            (seq 0 60) = true) as Hall by (vm_compute; reflexivity).
  rewrite forallb_forall in Hall.
  specialize (Hall (Z.to_nat z)).
  rewrite Z2Nat.id in Hall by lia.
  apply Nat.eqb_eq. apply Hall. apply in_seq. lia.
Qed.

(** X20: for a time between 0 and 2^53 seconds, [formatTime] shows the
    whole seconds split into minutes and a two-character seconds field
    between 00 and 59: with [t] the floor of the time, the label is
    [t / 60], a colon, and [t mod 60] padded with a zero to two
    characters. *)
Theorem formatTime_clock (seconds : Q) :
  0 <= seconds -> seconds <= twoTo53 ->
  formatTime seconds
  = string_of_Z (Qfloor seconds / 60) +:+ ":" +:+
    padStart 2 "0" (string_of_Z (Qfloor seconds mod 60)) /\
  (0 <= Qfloor seconds / 60)%Z /\
  (0 <= Qfloor seconds mod 60 < 60)%Z /\
  String.length (padStart 2 "0" (string_of_Z (Qfloor seconds mod 60)))
  = 2%nat.
Proof.
  intros Hs _.
  assert (0 <= Qfloor seconds)%Z as Hfloor.
  { change 0%Z with (Qfloor 0). apply Qfloor_resp_le. exact Hs. }
  assert (0 <= Qfloor seconds mod 60 < 60)%Z as Hmod
      by (apply Z.mod_pos_bound; lia).
  split; [| split; [| split]].
  - unfold formatTime. rewrite Qfloor_div60, (rem60_floor _ Hs). reflexivity.
  - apply Z.div_pos; lia.
  - exact Hmod.
  - apply two_digits. exact Hmod.
Qed.

Lemma formatTime_clock_witness :
  formatTime 125.5 = "2:05".
Proof.
  assert (0 <= 125.5) as Hpos by lra.
  assert (125.5 <= twoTo53) as Hmax by (unfold twoTo53; lra).
  destruct (formatTime_clock 125.5 Hpos Hmax) as (Hfmt & _).
  rewrite Hfmt. vm_compute. reflexivity.
Defined.

(** ** The range invariant outside the setters *)

Lemma range_ok_session (w w' : World) :
  startTime (session w') = startTime (session w) ->
  endTime (session w') = endTime (session w) ->
  range_ok w -> range_ok w'.
Proof.
  unfold range_ok. intros -> ->. exact (fun H => H).
Qed.

Lemma range_ok_frame (w w' : World) :
  async_frame w w' -> range_ok w -> range_ok w'.
Proof.
  intros (Hs & _). apply range_ok_session; rewrite Hs; reflexivity.
Qed.

Lemma range_ok_render (w : World) : range_ok w -> range_ok (render w).
Proof.
  apply range_ok_session; rewrite session_render; reflexivity.
Qed.

(** X21: apart from the two setters, no step of the application can break
    [0 <= startFraction < endFraction <= 100]: file selection, the
    metadata event (which sets [endFraction] to 100), preview, download,
    clear, the start of a trim or share and every settling of a request
    keep it. *)
Theorem range_kept_outside_setters (baseURL : string) (env : Env)
    (i : Input) (sys sys' : System) :
  is_slide i = false ->
  step baseURL env i sys = Some sys' ->
  range_ok (world sys) -> range_ok (world sys').
Proof.
  intros Hi Hstep Hr. destruct i; try discriminate Hi; simpl in Hstep.
  - unfold handleFileChange in Hstep.
    destruct (files ≫= head) as [file |];
      [destruct (String.prefix "video/" (file_type file)) |];
      injection Hstep as <-; apply range_ok_render; try exact Hr.
    destruct (currentUrl (session (world sys))); exact Hr.
  - destruct (videoRef (world sys)) as [v |]; [| discriminate Hstep].
    injection Hstep as <-. apply range_ok_render.
    destruct Hr as (H0 & Hlt & H100).
    unfold range_ok, handleLoadedMetadata; simpl.
    repeat split; lra.
  - unfold guard in Hstep.
    destruct (showTrimControls _); [| discriminate Hstep].
    injection Hstep as <-. apply range_ok_render. exact Hr.
  - unfold guard in Hstep.
    destruct (showTrimControls _); [| discriminate Hstep].
    injection Hstep as <-. unfold spawn.
    pose proof (advance_frame env (handleTrim baseURL (session (world sys)))
                              (world sys)) as Hfr.
    destruct (advance env _ (world sys)) as [[w1 t] o].
    apply range_ok_render. eapply range_ok_frame; eassumption.
  - unfold guard in Hstep.
    destruct (showActions _); [| discriminate Hstep].
    injection Hstep as <-. unfold spawn.
    pose proof (advance_frame env (handleDownload (session (world sys)))
                              (world sys)) as Hfr.
    destruct (advance env _ (world sys)) as [[w1 t] o].
    apply range_ok_render. eapply range_ok_frame; eassumption.
  - unfold guard in Hstep.
    destruct (showActions _); [| discriminate Hstep].
    injection Hstep as <-. unfold spawn.
    pose proof (advance_frame env (handleShare baseURL (session (world sys)))
                              (world sys)) as Hfr.
    destruct (advance env _ (world sys)) as [[w1 t] o].
    apply range_ok_render. eapply range_ok_frame; eassumption.
  - unfold guard in Hstep.
    destruct (showActions _); [| discriminate Hstep].
    injection Hstep as <-. apply range_ok_render.
    unfold range_ok, handleClear.
    destruct (currentUrl (session (world sys))); simpl; repeat split; lra.
  - destruct (pending sys !! i) as [[r k] |]; [| discriminate Hstep].
    pose proof (advance_frame env (k (respond env r)) (world sys)) as Hfr.
    destruct (advance env (k (respond env r)) (world sys)) as [[w1 t] o].
    injection Hstep as <-. apply range_ok_render.
    eapply range_ok_frame; eassumption.
Qed.

Lemma range_kept_outside_setters_witness :
  exists sys',
    step baseURL_selfhosted okEnv (MetadataLoaded 60) loadedSystem = Some sys'
    /\ range_ok (world sys').
Proof.
  eexists. split; [reflexivity |].
  apply (range_kept_outside_setters baseURL_selfhosted okEnv
           (MetadataLoaded 60) loadedSystem _ eq_refl eq_refl).
  unfold range_ok; simpl. repeat split; lra.
Defined.
